(** * Chunk normalisation pipeline of navigator-document-text-processing

    A shallow embedding of [src/src/models.py], [src/src/pipeline.py],
    [src/src/utils.py] and [src/src/chunk_processors.py].

    Modelling conventions:
    - Python exceptions are the constructors of [exn]; a fallible
      computation returns [result A] ([Ok] or [Raise]).
    - Chunks are Python objects: they live in a [store] (a [gmap] from
      locations to records) wherever a claim depends on aliasing or
      in-place mutation; the [heading] field is a reference (a location).
    - Text is an ASCII [string]; float coordinates are modelled by
      integers (the code only compares them).
    - Logging has no observable effect and is omitted. *)

From stdpp Require Import base gmap strings list.
From Stdlib Require Import ZArith Ascii String.
Open Scope Z_scope.

(* ================================================================== *)
(** ** Python prelude: exceptions, results, strings *)

Inductive exn :=
| ValueError
| NameError
| ValidationError   (* pydantic_core.ValidationError *)
| AssertionError
| KeyError.

Inductive result (A : Type) :=
| Ok (a : A)
| Raise (e : exn).
Arguments Ok {A} a.
Arguments Raise {A} e.

Definition bind {A B} (m : result A) (k : A -> result B) : result B :=
  match m with Ok a => k a | Raise e => Raise e end.

Notation "'let!' x ':=' m 'in' k" := (bind m (fun x => k))
  (at level 200, x name, m at level 100, k at level 200).
Notation "'let!' ' x ':=' m 'in' k" := (bind m (fun x => k))
  (at level 200, x strict pattern, m at level 100, k at level 200).

Fixpoint mapM {A B} (f : A -> result B) (l : list A) : result (list B) :=
  match l with
  | [] => Ok []
  | x :: l' => let! y := f x in let! ys := mapM f l' in Ok (y :: ys)
  end.

(** [str.isspace] on ASCII characters: \t \n \v \f \r, the separators
    \x1c-\x1f and the space. *)
Definition is_space (a : ascii) : bool :=
  let n := nat_of_ascii a in
  ((9 <=? n) && (n <=? 13))%nat || ((28 <=? n) && (n <=? 32))%nat.

Fixpoint lstrip (s : string) : string :=
  match s with
  | EmptyString => EmptyString
  | String a s' => if is_space a then lstrip s' else s
  end.

Definition rev_string (s : string) : string :=
  string_of_list_ascii (rev (list_ascii_of_string s)).

(** [str.strip()] *)
Definition strip (s : string) : string :=
  rev_string (lstrip (rev_string (lstrip s))).

(** [str.endswith(suffix)] *)
Definition endswith (s suffix : string) : bool :=
  let n := String.length s in
  let k := String.length suffix in
  (k <=? n)%nat && String.eqb (substring (n - k) k s) suffix.

(** [sep.join(l)] *)
Fixpoint join (sep : string) (l : list string) : string :=
  match l with
  | [] => EmptyString
  | [x] => x
  | x :: l' => x ++ sep ++ join sep l'
  end.

(* ================================================================== *)
(** ** [cpr_sdk.parser_models.BlockType] (an external [str] enum) *)

Inductive BlockType :=
| TEXT | TITLE | LIST | TABLE | TABLE_CELL | FIGURE | INFERRED | AMBIGUOUS
| GOOGLE_BLOCK | PAGE_HEADER | PAGE_FOOTER | TITLE_LOWER_CASE
| SECTION_HEADING | PAGE_NUMBER | DOCUMENT_HEADER | FOOT_NOTE.

Definition BlockType_value (t : BlockType) : string :=
  match t with
  | TEXT => "Text" | TITLE => "Title" | LIST => "List" | TABLE => "Table"
  | TABLE_CELL => "TableCell" | FIGURE => "Figure"
  | INFERRED => "Inferred from gaps" | AMBIGUOUS => "Ambiguous"
  | GOOGLE_BLOCK => "Google Text Block" | PAGE_HEADER => "pageHeader"
  | PAGE_FOOTER => "pageFooter" | TITLE_LOWER_CASE => "title"
  | SECTION_HEADING => "sectionHeading" | PAGE_NUMBER => "pageNumber"
  | DOCUMENT_HEADER => "Document Header" | FOOT_NOTE => "footnote"
  end%string.

Definition all_BlockTypes : list BlockType :=
  [TEXT; TITLE; LIST; TABLE; TABLE_CELL; FIGURE; INFERRED; AMBIGUOUS;
   GOOGLE_BLOCK; PAGE_HEADER; PAGE_FOOTER; TITLE_LOWER_CASE;
   SECTION_HEADING; PAGE_NUMBER; DOCUMENT_HEADER; FOOT_NOTE].

#[global] Instance BlockType_eq_dec : EqDecision BlockType.
Proof. solve_decision. Defined.

(** [BlockType(value)]: the enum lookup by value; an unknown value
    raises [ValueError] (Python's [Enum] semantics). *)
Definition BlockType_call (v : string) : result BlockType :=
  match List.find (fun t => String.eqb (BlockType_value t) v) all_BlockTypes with
  | Some t => Ok t
  | None => Raise ValueError
  end.

Definition type_in (t : BlockType) (l : list BlockType) : bool :=
  bool_decide (t ∈ l).

(* ================================================================== *)
(** ** [models.Chunk] *)

Definition loc := positive.
Definition Point : Type := Z * Z.
Definition Box : Type := list Point.

Record Chunk := mkChunk {
  id : Z;
  text : string;
  chunk_type : BlockType;
  heading : option loc;                 (* Optional["Chunk"]: a reference *)
  bounding_boxes : option (list Box);
  pages : option (list Z);
  tokens : option (list string);
  serialized_text : option string
}.

(** Python values passed as keyword arguments to the pydantic
    constructor. *)
Inductive pyval :=
| VNone
| VInt (z : Z)
| VStr (s : string)
| VType (t : BlockType)
| VRef (l : loc)
| VBoxes (b : list Box)
| VInts (l : list Z)
| VStrs (l : list string).

Definition kwargs : Type := list (string * pyval).

Definition kw_lookup (k : string) (kw : kwargs) : option pyval :=
  match List.find (fun p => String.eqb p.1 k) kw with
  | Some p => Some p.2
  | None => None
  end.

(** A field without a default: missing means a validation error.
    Keyword arguments that name no field are ignored (pydantic's
    default [extra="ignore"]). *)
Definition required {A} (k : string) (conv : pyval -> result A) (kw : kwargs)
  : result A :=
  match kw_lookup k kw with
  | Some v => conv v
  | None => Raise ValidationError
  end.

(** A field with default [None]. *)
Definition optional {A} (k : string) (conv : pyval -> result (option A))
  (kw : kwargs) : result (option A) :=
  match kw_lookup k kw with
  | Some v => conv v
  | None => Ok None
  end.

(** [id: Annotated[int, Field(strict=True, ge=0)]] *)
Definition conv_id (v : pyval) : result Z :=
  match v with
  | VInt z => if 0 <=? z then Ok z else Raise ValidationError
  | _ => Raise ValidationError
  end.

Definition conv_text (v : pyval) : result string :=
  match v with VStr s => Ok s | _ => Raise ValidationError end.

(** [chunk_type: BlockType]: a member, or a value of the enum. *)
Definition conv_chunk_type (v : pyval) : result BlockType :=
  match v with
  | VType t => Ok t
  | VStr s =>
      match BlockType_call s with
      | Ok t => Ok t
      | Raise _ => Raise ValidationError
      end
  | _ => Raise ValidationError
  end.

Definition conv_heading (v : pyval) : result (option loc) :=
  match v with VNone => Ok None | VRef l => Ok (Some l) | _ => Raise ValidationError end.

(** [Chunk._verify_bounding_boxes] on one box. *)
Definition verify_box (box : Box) : bool :=
  match box with
  | [p0; p1; p2; _] =>
      let xmin := p0.1 in
      let ymin := p0.2 in
      let xmax := p1.1 in
      let ymax := p2.2 in
      (xmin <? xmax) && (ymin <? ymax)
  | _ => false
  end.

(** [bounding_boxes] with its [field_validator]: the [ValueError] it
    raises surfaces as a validation error. *)
Definition conv_bounding_boxes (v : pyval) : result (option (list Box)) :=
  match v with
  | VNone => Ok None
  | VBoxes b => if forallb verify_box b then Ok (Some b) else Raise ValidationError
  | _ => Raise ValidationError
  end.

Definition conv_pages (v : pyval) : result (option (list Z)) :=
  match v with VNone => Ok None | VInts l => Ok (Some l) | _ => Raise ValidationError end.

Definition conv_tokens (v : pyval) : result (option (list string)) :=
  match v with VNone => Ok None | VStrs l => Ok (Some l) | _ => Raise ValidationError end.

Definition conv_serialized_text (v : pyval) : result (option string) :=
  match v with VNone => Ok None | VStr s => Ok (Some s) | _ => Raise ValidationError end.

(** [Chunk(...)] with keyword arguments: pydantic validation of every field. *)
Definition Chunk_new (kw : kwargs) : result Chunk :=
  let! i := required "id" conv_id kw in
  let! t := required "text" conv_text kw in
  let! ty := required "chunk_type" conv_chunk_type kw in
  let! h := optional "heading" conv_heading kw in
  let! bb := required "bounding_boxes" conv_bounding_boxes kw in
  let! pg := required "pages" conv_pages kw in
  let! tk := optional "tokens" conv_tokens kw in
  let! st := optional "serialized_text" conv_serialized_text kw in
  Ok (mkChunk i t ty h bb pg tk st).

Definition is_none {A} (o : option A) : bool :=
  match o with None => true | Some _ => false end.

(** [Chunk._check_incompatible_properties] *)
Definition check_incompatible_properties (self : Chunk) (others : list Chunk)
  : list string :=
  (if existsb (fun c => negb (Bool.eqb (is_none (bounding_boxes c))
                                       (is_none (bounding_boxes self)))) others
   then ["bounding_boxes"%string] else [])
  ++
  (if existsb (fun c => negb (Bool.eqb (is_none (pages c))
                                       (is_none (pages self)))) others
   then ["pages"%string] else []).

Definition opt_boxes (o : option (list Box)) : pyval :=
  match o with None => VNone | Some b => VBoxes b end.

Definition opt_ints (o : option (list Z)) : pyval :=
  match o with None => VNone | Some l => VInts l end.

(** The list comprehension
    [[x for chunk in all_chunks if chunk.f is not None for x in chunk.f]],
    or [None] when the receiver's field is [None]. *)
Definition combine_field {A} (f : Chunk -> option (list A)) (self : Chunk)
  (all_chunks : list Chunk) : option (list A) :=
  match f self with
  | None => None
  | Some _ => Some (List.concat (map (fun c => default [] (f c)) all_chunks))
  end.

(** [Chunk.merge].  The [isinstance] checks always pass on typed
    arguments; [_check_optional_properties] only logs. *)
Definition merge (self : Chunk) (others : list Chunk) (text_separator : string)
  : result Chunk :=
  match others with
  | [] => Ok self
  | _ :: _ =>
      match check_incompatible_properties self others with
      | _ :: _ => Raise ValueError
      | [] =>
          let all_chunks := self :: others in
          Chunk_new
            [("id", VInt (fold_left Z.min (map id others) (id self)));
             ("text", VStr (join text_separator (map text all_chunks)));
             ("chunk_type", VType (chunk_type self));
             ("bounding_boxes", opt_boxes (combine_field bounding_boxes self all_chunks));
             ("pages", opt_ints (combine_field pages self all_chunks));
             ("heading", VNone);
             ("tokens", VNone);
             ("serialized_text", VNone)]%string
      end
  end.

(* ================================================================== *)
(** ** [pipeline.parser_output_to_chunks] *)

(** The page data of a [PDFTextBlock] ([cpr_sdk]). *)
Record PdfData := mkPdfData { page_number : Z; coords : list Point }.

(** A [TextBlock] of the parser output: [to_string()], its [type], and
    the page data when it is a [PDFTextBlock]. *)
Record TextBlock := mkTextBlock {
  to_string : string;
  tb_type : BlockType;
  pdf : option PdfData
}.

Record ParserOutput := mkParserOutput { text_blocks : list TextBlock }.

Definition block_kwargs (idx : nat) (text_block : TextBlock) : kwargs :=
  [("idx", VInt (Z.of_nat idx));
   ("text", VStr (to_string text_block));
   ("chunk_type", VType (tb_type text_block));
   ("bounding_boxes",
     match pdf text_block with
     | Some d => match coords d with [] => VNone | cs => VBoxes [cs] end
     | None => VNone
     end);
   ("pages",
     match pdf text_block with
     | Some d => VInts [page_number d]
     | None => VNone
     end)]%string.

Fixpoint enumerate_from {A} (n : nat) (l : list A) : list (nat * A) :=
  match l with
  | [] => []
  | x :: l' => (n, x) :: enumerate_from (S n) l'
  end.

Definition parser_output_to_chunks (parser_output : ParserOutput)
  : result (list Chunk) :=
  match text_blocks parser_output with
  | [] => Ok []
  | blocks =>
      mapM (fun p => Chunk_new (block_kwargs p.1 p.2)) (enumerate_from 0 blocks)
  end.

(* ================================================================== *)
(** ** Objects: the store of chunks *)

(** The Python heap restricted to [Chunk] objects. *)
Abbreviation store := (gmap loc Chunk).

(** Dereferencing a list element; every element of a chunk list is a
    live object, so [KeyError] marks a dangling location, which the
    Python program cannot produce. *)
Definition deref (st : store) (l : loc) : result Chunk :=
  match st !! l with Some c => Ok c | None => Raise KeyError end.

(** Creating a new object. *)
Definition alloc (st : store) (c : Chunk) : loc * store :=
  let l := fresh (dom st) in (l, <[l := c]> st).

Definition set_heading (c : Chunk) (h : option loc) : Chunk :=
  mkChunk (id c) (text c) (chunk_type c) h (bounding_boxes c) (pages c)
    (tokens c) (serialized_text c).

Definition set_text (c : Chunk) (t : string) : Chunk :=
  mkChunk (id c) t (chunk_type c) (heading c) (bounding_boxes c) (pages c)
    (tokens c) (serialized_text c).

Definition set_chunk_type_of (c : Chunk) (t : BlockType) : Chunk :=
  mkChunk (id c) (text c) t (heading c) (bounding_boxes c) (pages c)
    (tokens c) (serialized_text c).

(** [self.merge(others, text_separator)] on objects: the receiver object
    itself when [others] is empty, a new object otherwise. *)
Definition merge_obj (st : store) (self : loc) (others : list loc)
  (text_separator : string) : result (loc * store) :=
  match others with
  | [] => Ok (self, st)
  | _ :: _ =>
      let! c := deref st self in
      let! cs := mapM (deref st) others in
      let! m := merge c cs text_separator in
      Ok (alloc st m)
  end.

(* ================================================================== *)
(** ** [utils.filter_and_warn_for_unknown_types] and [ChunkTypeFilter] *)

Definition exn_eqb (e1 e2 : exn) : bool :=
  match e1, e2 with
  | ValueError, ValueError | NameError, NameError
  | ValidationError, ValidationError | AssertionError, AssertionError
  | KeyError, KeyError => true
  | _, _ => false
  end.

(** The iteration order of [set(types)]: each distinct string once.
    (CPython's order depends on string hashes; the result of the loop
    below does not depend on it.) *)
Fixpoint set_iter (l : list string) : list string :=
  match l with
  | [] => []
  | x :: l' => x :: List.filter (fun y => negb (String.eqb y x)) (set_iter l')
  end.

(** The [for _type in set(types): try: BlockType(_type) except NameError:]
    loop, accumulating [types_to_remove]. *)
Fixpoint collect_unknown (ts : list string) (types_to_remove : list string)
  : result (list string) :=
  match ts with
  | [] => Ok types_to_remove
  | t :: ts' =>
      match BlockType_call t with
      | Ok _ => collect_unknown ts' types_to_remove
      | Raise e =>
          if exn_eqb e NameError
          then collect_unknown ts' (types_to_remove ++ [t])
          else Raise e
      end
  end.

Definition filter_and_warn_for_unknown_types (types : list string)
  : result (list string) :=
  let! types_to_remove := collect_unknown (set_iter types) [] in
  Ok (List.filter (fun t => negb (existsb (String.eqb t) types_to_remove)) types).

Record ChunkTypeFilter := mkChunkTypeFilter { types_to_remove : list string }.

(** [ChunkTypeFilter.__init__] *)
Definition ChunkTypeFilter_init (types_to_remove : list string)
  : result ChunkTypeFilter :=
  let! ts := filter_and_warn_for_unknown_types types_to_remove in
  Ok (mkChunkTypeFilter ts).

(** [ChunkTypeFilter.__call__]: [chunk_type not in types_to_remove]
    compares the [str] enum member with the configured strings. *)
Definition ChunkTypeFilter_call (self : ChunkTypeFilter) (chunks : list Chunk)
  : list Chunk :=
  List.filter (fun c => negb (existsb (String.eqb (BlockType_value (chunk_type c)))
                                 (types_to_remove self))) chunks.

(* ================================================================== *)
(** ** [RemoveRepeatedAdjacentChunks] *)

Definition lower_ascii (a : ascii) : ascii :=
  let n := nat_of_ascii a in
  if ((65 <=? n) && (n <=? 90))%nat then ascii_of_nat (n + 32) else a.

(** [str.lower()] *)
Fixpoint lower (s : string) : string :=
  match s with
  | EmptyString => EmptyString
  | String a s' => String (lower_ascii a) (lower s')
  end.

Record RemoveRepeatedAdjacentChunks := mkRemoveRepeatedAdjacentChunks {
  rr_chunk_types : list BlockType;
  rr_ignore_case : bool
}.

Definition RemoveRepeatedAdjacentChunks_default :=
  mkRemoveRepeatedAdjacentChunks
    [SECTION_HEADING; TITLE; PAGE_HEADER; PAGE_FOOTER; FOOT_NOTE] true.

(** The dict [current_chunk_of_type], keyed by the configured types. *)
Definition type_map := BlockType -> option string.

Definition tm_set (m : type_map) (t : BlockType) (v : option string) : type_map :=
  fun t' => if decide (t' = t) then v else m t'.

Fixpoint rr_loop (self : RemoveRepeatedAdjacentChunks) (cur : type_map)
  (chunks : list Chunk) : list Chunk :=
  match chunks with
  | [] => []
  | chunk :: rest =>
      if negb (type_in (chunk_type chunk) (rr_chunk_types self))
      then chunk :: rr_loop self cur rest
      else
        let chunk_text :=
          if rr_ignore_case self then lower (text chunk) else text chunk in
        match cur (chunk_type chunk) with
        | None =>
            chunk :: rr_loop self (tm_set cur (chunk_type chunk) (Some chunk_text)) rest
        | Some matched_text =>
            if negb (String.eqb matched_text chunk_text)
            then chunk :: rr_loop self (tm_set cur (chunk_type chunk) (Some chunk_text)) rest
            else rr_loop self cur rest
        end
  end.

Definition RemoveRepeatedAdjacentChunks_call (self : RemoveRepeatedAdjacentChunks)
  (chunks : list Chunk) : list Chunk :=
  rr_loop self (fun _ => None) chunks.

(* ================================================================== *)
(** ** [AddHeadings]: writes the [heading] field of the list's objects *)

Definition heading_types : list BlockType := [TITLE; TITLE_LOWER_CASE].
Definition subheading_types : list BlockType := [SECTION_HEADING; PAGE_HEADER].

(** [chunk.heading = v], an in-place write to the object at [l]. *)
Definition write_heading (st : store) (l : loc) (v : option loc) : result store :=
  let! c := deref st l in Ok (<[l := set_heading c v]> st).

(** [current_subheading or current_heading]: a [Chunk] object is always
    truthy. *)
Definition py_or (a b : option loc) : option loc :=
  match a with Some _ => a | None => b end.

Fixpoint add_headings_loop (st : store) (current_heading current_subheading : option loc)
  (chunks : list loc) : result store :=
  match chunks with
  | [] => Ok st
  | l :: rest =>
      let! chunk := deref st l in
      if type_in (chunk_type chunk) heading_types then
        add_headings_loop st (Some l) None rest
      else if type_in (chunk_type chunk) subheading_types then
        let! st' := write_heading st l current_heading in
        add_headings_loop st' current_heading (Some l) rest
      else
        let! st' := write_heading st l (py_or current_subheading current_heading) in
        add_headings_loop st' current_heading current_subheading rest
  end.

(** [AddHeadings.__call__]: [new_chunks = list(chunks)] copies the list,
    not its elements. *)
Definition AddHeadings_call (st : store) (chunks : list loc)
  : result (list loc * store) :=
  let new_chunks := chunks in
  let! st' := add_headings_loop st None None new_chunks in
  Ok (new_chunks, st').

(** Following [heading] references [k] times from [l]. *)
Fixpoint reach (st : store) (k : nat) (l : loc) : option loc :=
  match k with
  | O => Some l
  | S k' => match reach st k' l with
            | Some m => match st !! m with Some c => heading c | None => None end
            | None => None
            end
  end.

(* ================================================================== *)
(** ** [CombineSuccessiveSameTypeChunks] *)

Record CombineSuccessiveSameTypeChunks := mkCombineSuccessiveSameTypeChunks {
  chunk_types_to_combine : list BlockType;
  cs_text_separator : string;
  merge_into_chunk_type : option BlockType
}.

(** [_set_chunk_type]: [merged_chunk.chunk_type = ...] writes the object. *)
Definition set_chunk_type (self : CombineSuccessiveSameTypeChunks) (st : store)
  (merged_chunk : loc) : result (loc * store) :=
  match merge_into_chunk_type self with
  | Some t =>
      let! c := deref st merged_chunk in
      Ok (merged_chunk, <[merged_chunk := set_chunk_type_of c t]> st)
  | None => Ok (merged_chunk, st)
  end.

Fixpoint combine_loop (self : CombineSuccessiveSameTypeChunks) (st : store)
  (current_chunk : option loc) (chunks : list loc) : result (list loc * store) :=
  match chunks with
  | [] =>
      match current_chunk with
      | Some cur => let! '(l, st') := set_chunk_type self st cur in Ok ([l], st')
      | None => Ok ([], st)
      end
  | l :: rest =>
      let! chunk := deref st l in
      if negb (type_in (chunk_type chunk) (chunk_types_to_combine self)) then
        match current_chunk with
        | Some cur =>
            let! '(l', st1) := set_chunk_type self st cur in
            let! '(out, st2) := combine_loop self st1 None rest in
            Ok (l' :: l :: out, st2)
        | None =>
            let! '(out, st2) := combine_loop self st None rest in
            Ok (l :: out, st2)
        end
      else
        match current_chunk with
        | None => combine_loop self st (Some l) rest
        | Some cur =>
            let! cur_c := deref st cur in
            if decide (chunk_type chunk = chunk_type cur_c) then
              let! '(m, st1) := merge_obj st cur [l] (cs_text_separator self) in
              combine_loop self st1 (Some m) rest
            else
              let! '(l', st1) := set_chunk_type self st cur in
              let! '(out, st2) := combine_loop self st1 (Some l) rest in
              Ok (l' :: out, st2)
        end
  end.

Definition CombineSuccessiveSameTypeChunks_call (self : CombineSuccessiveSameTypeChunks)
  (st : store) (chunks : list loc) : result (list loc * store) :=
  combine_loop self st None chunks.

(* ================================================================== *)
(** ** The [re] module and [RemoveRegexPattern] *)

(** The two functions of Python's [re] module the processor calls:
    [re_match p ic s] is [re.match(p, s, re.IGNORECASE if ic else 0) is not None];
    [re_sub p repl s count ic] is
    [re.sub(p, repl, s, count, re.IGNORECASE if ic else 0)],
    where [count = 0] replaces every match. *)
Record ReModule := mkReModule {
  re_match : string -> bool -> string -> bool;
  re_sub : string -> string -> string -> nat -> bool -> string
}.

Record RemoveRegexPattern := mkRemoveRegexPattern {
  pattern : string;
  replace_with : string;
  skip_partial_replacements : bool;
  rx_chunk_types : option (list BlockType);
  ignore_case : bool
}.

(** [RemoveRegexPattern.__init__]: [self.chunk_types = chunk_types or None]. *)
Definition RemoveRegexPattern_init (pattern replace_with : string)
  (skip_partial_replacements : bool) (chunk_types : list BlockType)
  (ignore_case : bool) : RemoveRegexPattern :=
  mkRemoveRegexPattern pattern replace_with skip_partial_replacements
    (match chunk_types with [] => None | _ => Some chunk_types end) ignore_case.

(** [re.IGNORECASE if self.ignore_case else 0] as an [int]: [re.IGNORECASE]
    is 2. *)
Definition ignorecase_int (b : bool) : nat := if b then 2%nat else 0%nat.

Definition rx_passes_through (self : RemoveRegexPattern) (chunk : Chunk) : bool :=
  match rx_chunk_types self with
  | Some ts => negb (type_in (chunk_type chunk) ts)
  | None => false
  end.

Fixpoint rx_loop (R : ReModule) (self : RemoveRegexPattern) (st : store)
  (chunks : list loc) : result (list loc * store) :=
  match chunks with
  | [] => Ok ([], st)
  | l :: rest =>
      let! chunk := deref st l in
      if rx_passes_through self chunk then
        let! '(out, st') := rx_loop R self st rest in Ok (l :: out, st')
      else if re_match R ("^" ++ pattern self ++ "$") (ignore_case self) (text chunk) then
        rx_loop R self st rest
      else if skip_partial_replacements self then
        let! '(out, st') := rx_loop R self st rest in Ok (l :: out, st')
      else
        (* the fourth positional argument of [re.sub] is [count] *)
        let new_text := re_sub R (pattern self) (replace_with self) (text chunk)
                          (ignorecase_int (ignore_case self)) false in
        let '(new_chunk, st1) := alloc st chunk in
        let st2 := <[new_chunk := set_text chunk (strip new_text)]> st1 in
        if String.eqb (strip new_text) EmptyString then rx_loop R self st2 rest
        else let! '(out, st') := rx_loop R self st2 rest in Ok (new_chunk :: out, st')
  end.

Definition RemoveRegexPattern_call (R : ReModule) (self : RemoveRegexPattern)
  (st : store) (chunks : list loc) : result (list loc * store) :=
  rx_loop R self st chunks.

(** *** [re] on patterns made of ordinary characters

    [lit_re] is Python's [re.match] / [re.sub] on patterns whose body is a
    non-empty run of characters without regex meaning, optionally framed
    by [^] and [$]: [^] anchors at the start, [$] at the end of the string
    or before a final newline. *)

Definition eq_ci (ic : bool) (a b : ascii) : bool :=
  if ic then Ascii.eqb (lower_ascii a) (lower_ascii b) else Ascii.eqb a b.

(** [Some rest] when [s = body ++ rest] (up to case under [ic]). *)
Fixpoint strip_prefix (ic : bool) (body s : string) : option string :=
  match body, s with
  | EmptyString, _ => Some s
  | String a body', String b s' => if eq_ci ic a b then strip_prefix ic body' s' else None
  | String _ _, EmptyString => None
  end.

Definition drop_caret (p : string) : string :=
  match p with String "^"%char p' => p' | _ => p end.

Definition split_dollar (p : string) : string * bool :=
  let n := String.length p in
  if endswith p "$" then (substring 0 (n - 1) p, true) else (p, false).

Definition lit_match (p : string) (ic : bool) (s : string) : bool :=
  let '(body, dollar) := split_dollar (drop_caret p) in
  match strip_prefix ic body s with
  | Some rest =>
      if dollar then String.eqb rest EmptyString || String.eqb rest (String "010"%char EmptyString)
      else true
  | None => false
  end.

(** Leftmost non-overlapping occurrences, at most [count] of them when
    [count > 0]. *)
Fixpoint lit_sub_go (fuel : nat) (ic : bool) (body repl : string)
  (left : option nat) (s : string) : string :=
  match fuel with
  | O => s
  | S fuel' =>
      match s with
      | EmptyString => EmptyString
      | String a s' =>
          match left, strip_prefix ic body s with
          | Some O, _ => s
          | _, Some rest =>
              repl ++ lit_sub_go fuel' ic body repl (option_map Nat.pred left) rest
          | _, None => String a (lit_sub_go fuel' ic body repl left s')
          end
      end
  end.

Definition lit_sub (p repl s : string) (count : nat) (ic : bool) : string :=
  lit_sub_go (S (String.length s)) ic p repl
    (match count with O => None | _ => Some count end) s.

Definition lit_re : ReModule := mkReModule lit_match lit_sub.

(* ================================================================== *)
(** ** String helpers for the sentence splitters *)

Definition str_drop (n : nat) (s : string) : string :=
  substring n (String.length s - n) s.

Definition str_take (n : nat) (s : string) : string := substring 0 n s.

(** [sub in s] *)
Fixpoint contains (sub s : string) : bool :=
  match s with
  | EmptyString => String.eqb sub EmptyString
  | String _ s' => String.prefix sub s || contains sub s'
  end.

(** [s.find(sub)]: the lowest index, or [-1]. *)
Fixpoint find_from (sub s : string) (i : Z) : Z :=
  match s with
  | EmptyString => if String.eqb sub EmptyString then i else -1
  | String _ s' => if String.prefix sub s then i else find_from sub s' (i + 1)
  end.

Definition find (s sub : string) : Z := find_from sub s 0.

(** Python slice bounds: a negative index counts from the end, then the
    index is clamped to [0, len(s)]. *)
Definition py_index (s : string) (i : Z) : nat :=
  let n := Z.of_nat (String.length s) in
  let j := if i <? 0 then i + n else i in
  Z.to_nat (Z.max 0 (Z.min j n)).

(** [s[:i]] and [s[i:]] *)
Definition slice_to (s : string) (i : Z) : string := str_take (py_index s i) s.
Definition slice_from (s : string) (i : Z) : string := str_drop (py_index s i) s.

(** [s.replace(old, new)] for a non-empty [old]. *)
Fixpoint replace_go (fuel : nat) (old new s : string) : string :=
  match fuel with
  | O => s
  | S fuel' =>
      match s with
      | EmptyString => EmptyString
      | String a s' =>
          if String.prefix old s
          then new ++ replace_go fuel' old new (str_drop (String.length old) s)
          else String a (replace_go fuel' old new s')
      end
  end.

Definition replace (s old new : string) : string :=
  replace_go (S (String.length s)) old new s.

Definition newline : string := String "010"%char EmptyString.

(* ================================================================== *)
(** ** [SplitTextIntoSentencesBasic.__call__] (shared by both splitters) *)

Section SentenceSplitting.

(** The [_extract_complete_sentences] method of the splitter. *)
Variable extract_complete_sentences : string -> list string.
Variable chunk_types_to_ignore : list BlockType.

(** The loop removing each complete sentence from [remaining_text]. *)
Fixpoint remove_sentences (remaining_text : string) (sentences : list string) : string :=
  match sentences with
  | [] => remaining_text
  | sentence :: rest =>
      let sentence_start := find remaining_text sentence in
      let sentence_end := sentence_start + Z.of_nat (String.length sentence) in
      remove_sentences
        (strip (slice_to remaining_text sentence_start ++ slice_from remaining_text sentence_end))
        rest
  end.

(** One TEXT chunk, with [current_chunk] and its [text] already built:
    the output it emits and the new [incomplete_chunk]. *)
Definition split_working (current_chunk : Chunk) (t : string)
  : list Chunk * option Chunk :=
  let complete_sentences := extract_complete_sentences t in
  let remaining_text := remove_sentences t complete_sentences in
  (map (fun sentence => set_text current_chunk sentence) complete_sentences,
   if String.eqb remaining_text EmptyString then None
   else Some (set_text current_chunk remaining_text)).

Fixpoint split_loop (incomplete_chunk : option Chunk) (skipped_chunk_buffer : list Chunk)
  (chunks : list Chunk) : result (list Chunk) :=
  match chunks with
  | [] =>
      Ok (match incomplete_chunk with Some c => [c] | None => [] end
          ++ skipped_chunk_buffer)
  | chunk :: rest =>
      if type_in (chunk_type chunk) chunk_types_to_ignore then
        split_loop incomplete_chunk (skipped_chunk_buffer ++ [chunk]) rest
      else if negb (bool_decide (chunk_type chunk = TEXT)) then
        let! out := split_loop None [] rest in
        Ok (match incomplete_chunk with Some c => [c] | None => [] end
            ++ [chunk] ++ skipped_chunk_buffer ++ out)
      else
        match incomplete_chunk with
        | Some inc =>
            let t := strip (text inc ++ " " ++ text chunk) in
            let! merged := merge inc [chunk] " " in
            let current_chunk := set_text merged t in
            let '(sentences, inc') := split_working current_chunk t in
            let! out := split_loop inc' [] rest in
            Ok (sentences ++ skipped_chunk_buffer ++ out)
        | None =>
            let t := text chunk in
            let '(sentences, inc') := split_working chunk t in
            let! out := split_loop inc' [] rest in
            Ok (skipped_chunk_buffer ++ sentences ++ out)
        end
  end.

Definition split_call (chunks : list Chunk) : result (list Chunk) :=
  split_loop None [] chunks.

End SentenceSplitting.

(** [self.common_abbreviations] with the backslashes removed: the
    literal texts the patterns match. *)
Definition common_abbreviations : list string :=
  ["et al."; "etc."; "i.e."; "e.g."; "vs."; "Mr."; "Mrs."; "Dr."; "Prof.";
   "Inc."; "Ltd."; "Co."; "Jr."; "Sr."; "St."; "Ave."; "Blvd."; "Rd.";
   "Ph.D."; "M.D."]%string.

(** [re.search(r"[.!?…]$", s)] on a stripped string. *)
Definition ends_in_terminal (s : string) : bool :=
  endswith s "." || endswith s "!" || endswith s "?".

(** [SplitTextIntoSentencesPysbd._extract_complete_sentences]; [segment]
    is [pysbd.Segmenter(language="en").segment], an external library. *)
Definition pysbd_extract (segment : string -> list string) (t : string) : list string :=
  if String.eqb (strip t) EmptyString then []
  else
    let processed_text := replace t newline " " in
    List.filter (fun segment_str =>
              ends_in_terminal segment_str
              && negb (existsb (endswith segment_str) common_abbreviations)
              && contains segment_str processed_text)
      (map strip (segment processed_text)).

(* ================================================================== *)
(** ** [SplitTextIntoSentencesBasic._extract_complete_sentences] *)

Definition is_digit (a : ascii) : bool :=
  let n := nat_of_ascii a in ((48 <=? n) && (n <=? 57))%nat.

Definition is_upper (a : ascii) : bool :=
  let n := nat_of_ascii a in ((65 <=? n) && (n <=? 90))%nat.

(** [[.!?…]] on ASCII characters. *)
Definition is_terminal (a : ascii) : bool :=
  Ascii.eqb a "."%char || Ascii.eqb a "!"%char || Ascii.eqb a "?"%char.

(** Length of the longest prefix of [s] whose characters satisfy [p]. *)
Fixpoint run_len (p : ascii -> bool) (s : string) : nat :=
  match s with
  | String a s' => if p a then S (run_len p s') else O
  | EmptyString => O
  end.

(** The greedy [(\.\d+)*] at the start of [s]: its length. *)
Fixpoint dot_groups_len (fuel : nat) (s : string) : nat :=
  match fuel with
  | O => O
  | S fuel' =>
      match s with
      | String "."%char s' =>
          let d := run_len is_digit s' in
          if (d =? 0)%nat then O else S d + dot_groups_len fuel' (str_drop d s')
      | _ => O
      end
  end.

(** [\d+(\.\d+)+] at the start of [s]: the length of the match. *)
Definition version_core (s : string) : option nat :=
  let d := run_len is_digit s in
  if (d =? 0)%nat then None
  else
    let g := dot_groups_len (String.length s) (str_drop d s) in
    if (g =? 0)%nat then None else Some (d + g)%nat.

(** [number_pattern = r"\d+(\.\d+)+%?|v?\d+(\.\d+)+"] anchored at the
    start of [s]. *)
Definition number_match (s : string) : option nat :=
  match version_core s with
  | Some n =>
      Some (if String.prefix "%" (str_drop n s) then S n else n)
  | None =>
      match s with
      | String "v"%char s' =>
          match version_core s' with
          | Some n => Some (S n)
          | None => version_core s
          end
      | _ => version_core s
      end
  end.

(** [abbr(?![A-Z])] anchored at the start of [s], for a literal [abbr]. *)
Definition abbr_match (abbr : string) (s : string) : option nat :=
  if String.prefix abbr s then
    match str_drop (String.length abbr) s with
    | String a _ => if is_upper a then None else Some (String.length abbr)
    | EmptyString => Some (String.length abbr)
    end
  else None.

(** [complete_sentence_pattern = r"[^.!?…]+[.!?…]+(?=\s|\Z)"] anchored at
    the start of [s]; the greedy runs leave no alternative to backtrack
    into. *)
Definition sentence_match (s : string) : option nat :=
  let a := run_len (fun c => negb (is_terminal c)) s in
  if (a =? 0)%nat then None
  else
    let b := run_len is_terminal (str_drop a s) in
    if (b =? 0)%nat then None
    else
      match str_drop (a + b) s with
      | String c _ => if is_space c then Some (a + b)%nat else None
      | EmptyString => Some (a + b)%nat
      end.

(** [re.finditer] for a matcher that never matches the empty string:
    the (start, end) spans of the leftmost non-overlapping matches. *)
Fixpoint finditer_go (fuel : nat) (m : string -> option nat) (pos : nat) (s : string)
  : list (nat * nat) :=
  match fuel with
  | O => []
  | S fuel' =>
      match s with
      | EmptyString => []
      | String _ s' =>
          match m s with
          | Some (S _ as n) => (pos, pos + n)%nat :: finditer_go fuel' m (pos + n) (str_drop n s)
          | _ => finditer_go fuel' m (S pos) s'
          end
      end
  end.

Definition finditer (m : string -> option nat) (s : string) : list (nat * nat) :=
  finditer_go (S (String.length s)) m 0 s.

(** Decimal rendering of a [nat], as [f"{n}"]. *)
Fixpoint digits_rev (fuel n : nat) : string :=
  match fuel with
  | O => EmptyString
  | S fuel' =>
      let d := String (ascii_of_nat (48 + n mod 10)) EmptyString in
      if (n <? 10)%nat then d else digits_rev fuel' (n / 10) ++ d
  end.

Definition nat_to_string (n : nat) : string := digits_rev (S n) n.

(** [modified_text[:start] + placeholder + modified_text[end:]] *)
Definition splice (s : string) (start stop : nat) (placeholder : string) : string :=
  str_take start s ++ placeholder ++ str_drop stop s.

(** The dict [placeholder_map]: assigning an existing key keeps its place. *)
Fixpoint pm_set (m : list (string * string)) (k v : string) : list (string * string) :=
  match m with
  | [] => [(k, v)]
  | (k', v') :: m' => if String.eqb k k' then (k, v) :: m' else (k', v') :: pm_set m' k v
  end.

(** The number loop: matches in reverse order, each replaced by
    [f"__NUM_{match.start()}__"]. *)
Fixpoint protect_numbers (spans : list (nat * nat)) (s : string)
  (m : list (string * string)) : string * list (string * string) :=
  match spans with
  | [] => (s, m)
  | (st, en) :: rest =>
      let placeholder := ("__NUM_" ++ nat_to_string st ++ "__")%string in
      let num_text := substring st (en - st) s in
      protect_numbers rest (splice s st en placeholder) (pm_set m placeholder num_text)
  end.

Fixpoint protect_abbr (placeholder : string) (spans : list (nat * nat)) (s : string)
  (m : list (string * string)) : string * list (string * string) :=
  match spans with
  | [] => (s, m)
  | (st, en) :: rest =>
      let abbr_text := substring st (en - st) s in
      protect_abbr placeholder rest (splice s st en placeholder)
        (pm_set m placeholder abbr_text)
  end.

(** The abbreviation loop [for i, abbr in enumerate(...)]. *)
Fixpoint protect_abbreviations (i : nat) (abbrs : list string) (s : string)
  (m : list (string * string)) : string * list (string * string) :=
  match abbrs with
  | [] => (s, m)
  | abbr :: rest =>
      let placeholder := ("__ABBR_" ++ nat_to_string i ++ "__")%string in
      let '(s', m') := protect_abbr placeholder (rev (finditer (abbr_match abbr) s)) s m in
      protect_abbreviations (S i) rest s' m'
  end.

Definition restore (m : list (string * string)) (sentence : string) : string :=
  replace (fold_left (fun acc p => replace acc p.1 p.2) m sentence) newline " ".

Definition basic_extract (t : string) : list string :=
  let '(s1, m1) := protect_numbers (rev (finditer number_match t)) t [] in
  let '(s2, m2) := protect_abbreviations 0 common_abbreviations s1 m1 in
  let sentences :=
    List.filter (fun x => negb (String.eqb x EmptyString))
      (map (fun sp => strip (substring sp.1 (sp.2 - sp.1) s2))
         (finditer sentence_match s2)) in
  map (restore m2) sentences.

(* ================================================================== *)
(** ** [SplitTextIntoSentences]: the router *)

Inductive Splitter := PysbdSplitter | BasicSplitter.

Record SplitTextIntoSentences := mkSplitTextIntoSentences {
  splitter : Splitter;
  sp_chunk_types_to_ignore : list BlockType
}.

(** [SplitTextIntoSentences.__init__] (no [splitter_kwargs]). *)
Definition SplitTextIntoSentences_init (splitter_type : string)
  (chunk_types_to_ignore : list BlockType) : result SplitTextIntoSentences :=
  let t := lower splitter_type in
  if String.eqb t "pysbd" then Ok (mkSplitTextIntoSentences PysbdSplitter chunk_types_to_ignore)
  else if String.eqb t "basic" then Ok (mkSplitTextIntoSentences BasicSplitter chunk_types_to_ignore)
  else Raise ValueError.

(** [SplitTextIntoSentences.__call__]; [segment] is pysbd's segmenter. *)
Definition SplitTextIntoSentences_call (segment : string -> list string)
  (self : SplitTextIntoSentences) (chunks : list Chunk) : result (list Chunk) :=
  let extract :=
    match splitter self with
    | PysbdSplitter => pysbd_extract segment
    | BasicSplitter => basic_extract
    end in
  split_call extract (sp_chunk_types_to_ignore self) chunks.

(* ================================================================== *)
(** ** [RemoveShortTableCells] and [RemoveChunksUnderLength] *)

(** [re.match(r"^[+-]?[\d,\s]*\.?\d+$", s) is not None].  After the
    optional sign the pattern is recognised by an automaton: state [0]
    is inside [[\d,\s]*] after a non-digit (or at its start), [1] inside
    it after a digit (accepting: that digit can be the [\d+]), [2] just
    after the [\.], [3] in the [\d+] after the [\.] (accepting).  [$]
    also matches before a final newline. *)
Fixpoint numeric_run (state : nat) (s : string) : bool :=
  match s with
  | EmptyString => (state =? 1)%nat || (state =? 3)%nat
  | String a s' =>
      match state with
      | O | 1%nat =>
          if is_digit a then numeric_run 1 s'
          else if Ascii.eqb a ","%char || is_space a then numeric_run 0 s'
          else if Ascii.eqb a "."%char then numeric_run 2 s'
          else false
      | _ => if is_digit a then numeric_run 3 s' else false
      end
  end.

Definition numeric_body (s : string) : bool :=
  match s with
  | String "+"%char s' | String "-"%char s' => numeric_run 0 s'
  | _ => numeric_run 0 s
  end.

Definition all_numeric_match (s : string) : bool :=
  numeric_body s
  || (endswith s (String "010"%char EmptyString)
      && numeric_body (substring 0 (String.length s - 1) s)).

Record RemoveShortTableCells := mkRemoveShortTableCells {
  min_chars : Z;
  remove_all_numeric : bool
}.

(** [RemoveShortTableCells()]: [min_chars=0, remove_all_numeric=True]. *)
Definition RemoveShortTableCells_default := mkRemoveShortTableCells 0 true.

Fixpoint remove_short_loop (self : RemoveShortTableCells) (chunks : list Chunk)
  : list Chunk :=
  match chunks with
  | [] => []
  | chunk :: rest =>
      if negb (bool_decide (chunk_type chunk = TABLE_CELL)) then
        chunk :: remove_short_loop self rest
      else if Z.of_nat (String.length (text chunk)) <? min_chars self then
        remove_short_loop self rest
      else if remove_all_numeric self && all_numeric_match (strip (text chunk)) then
        remove_short_loop self rest
      else chunk :: remove_short_loop self rest
  end.

Definition RemoveShortTableCells_call (self : RemoveShortTableCells)
  (chunks : list Chunk) : list Chunk :=
  remove_short_loop self chunks.

Record RemoveChunksUnderLength := mkRemoveChunksUnderLength {
  min_num_characters : Z
}.

Definition RemoveChunksUnderLength_call (self : RemoveChunksUnderLength)
  (chunks : list Chunk) : list Chunk :=
  List.filter (fun chunk => min_num_characters self <=? Z.of_nat (String.length (text chunk)))
    chunks.

(* ================================================================== *)
(** ** The subclasses of [RemoveRegexPattern] *)

Definition RemoveFalseCheckboxes_init : RemoveRegexPattern :=
  RemoveRegexPattern_init "\s?:(?:un)?selected:\s?" " " false [] false.

Definition RemoveMisclassifiedPageNumbers_init : RemoveRegexPattern :=
  RemoveRegexPattern_init "^(?:page\s*)?\s*\d+$" " " true [PAGE_HEADER; PAGE_FOOTER] true.

(* ================================================================== *)
(** ** [encoders.sliding_window] *)

(** [range(0, stop, step)]: [ValueError] for a zero step, empty for a
    negative one (as [stop >= 0]), otherwise [ceil(stop / step)]
    multiples of [step]. *)
Definition range_step (stop : nat) (step : Z) : result (list Z) :=
  if step =? 0 then Raise ValueError
  else if step <? 0 then Ok []
  else Ok (map (fun k => Z.of_nat k * step)
              (seq 0 (Z.to_nat ((Z.of_nat stop + step - 1) / step)))).

(** [s[i:j]] *)
Definition py_slice (s : string) (i j : Z) : string :=
  substring (py_index s i) (py_index s j - py_index s i) s.

Definition sliding_window (text : string) (window_size stride : Z)
  : result (list string) :=
  let! is := range_step (String.length text) stride in
  Ok (map (fun i => py_slice text i (i + window_size))
        (List.filter (fun i => i + window_size <=? Z.of_nat (String.length text)) is)).

(* ================================================================== *)
(** ** [utils.get_ids_with_suffix] *)

(** [s.rfind(c)] for a one-character [c]: the highest index, or [-1]. *)
Fixpoint rfind_from (c : ascii) (s : string) (i best : Z) : Z :=
  match s with
  | EmptyString => best
  | String a s' => rfind_from c s' (i + 1) (if Ascii.eqb a c then i else best)
  end.

Definition rfind (s : string) (c : ascii) : Z := rfind_from c s 0 (-1).

(** [posixpath.basename] *)
Definition basename (p : string) : string :=
  slice_from p (rfind p "/"%char + 1).

(** [posixpath.splitext] ([genericpath._splitext] with [sep="/"],
    [extsep="."]): the last dot after the last slash starts the
    extension, unless only dots precede it in the file name (the loop
    skipping leading dots). *)
Definition splitext (p : string) : string * string :=
  let sepIndex := rfind p "/"%char in
  let dotIndex := rfind p "."%char in
  if sepIndex <? dotIndex then
    if existsb (fun a => negb (Ascii.eqb a "."%char))
         (list_ascii_of_string (py_slice p (sepIndex + 1) dotIndex))
    then (slice_to p dotIndex, slice_from p dotIndex)
    else (p, EmptyString)
  else (p, EmptyString).

Definition get_ids_with_suffix (files : list string) (suffix : string) : gset string :=
  let files := List.filter (fun file => endswith file suffix) files in
  list_to_set (map (fun file => (splitext (basename file)).1) files).

(* ================================================================== *)
(** ** [CombineTextChunksIntoList] *)

Section ListCombining.

(** [re.findall(self.list_item_pattern, text)] is non-empty. *)
Variable list_item_found : string -> bool.
(** [str.islower] on a one-character string. *)
Variable is_lower : ascii -> bool.
Variable ctl_text_separator : string.

Definition opt_list (o : option Chunk) : list Chunk :=
  match o with Some c => [c] | None => [] end.

(** The continuation test: [chunk.text[0].islower() if chunk.text and
    chunk.text.strip() else False] or the stripped text does not end
    with [.], [!] or [?]. *)
Definition list_continuation_text (t : string) : bool :=
  (match t with
   | String a _ => if String.eqb (strip t) EmptyString then false else is_lower a
   | EmptyString => false
   end)
  || negb (endswith (strip t) "." || endswith (strip t) "!" || endswith (strip t) "?").

(** The loop with [current_list_chunk], [potential_list_continuation]
    and [potential_list_intro]; the chunks appended to [new_chunks] in
    one iteration come before those of the rest. *)
Fixpoint combine_list_loop (current_list_chunk : option Chunk)
  (potential_list_continuation : bool) (potential_list_intro : option Chunk)
  (chunks : list Chunk) : result (list Chunk) :=
  match chunks with
  | [] =>
      Ok (match current_list_chunk with
          | Some c => [c]
          | None => opt_list potential_list_intro
          end)
  | chunk :: rest =>
      if negb (bool_decide (chunk_type chunk = TEXT)) then
        let! out := combine_list_loop None false None rest in
        Ok (opt_list current_list_chunk ++ opt_list potential_list_intro ++ [chunk] ++ out)
      else if list_item_found (text chunk) then
        match potential_list_intro with
        | Some intro =>
            let! m := merge (set_chunk_type_of intro LIST) [chunk] ctl_text_separator in
            let! out := combine_list_loop (Some m) true None rest in
            Ok (opt_list current_list_chunk ++ out)
        | None =>
            match current_list_chunk with
            | Some cur =>
                let! m := merge cur [chunk] ctl_text_separator in
                combine_list_loop (Some m) true None rest
            | None =>
                combine_list_loop (Some (set_chunk_type_of chunk LIST)) true None rest
            end
        end
      else
        match current_list_chunk with
        | Some cur =>
            if potential_list_continuation && list_continuation_text (text chunk) then
              let! m := merge cur [chunk] " " in
              combine_list_loop (Some m) potential_list_continuation potential_list_intro rest
            else if endswith (strip (text chunk)) ":" then
              let! out := combine_list_loop None false (Some chunk) rest in
              Ok ([cur] ++ out)
            else
              let! out := combine_list_loop None false None rest in
              Ok ([cur] ++ opt_list potential_list_intro ++ [chunk] ++ out)
        | None =>
            if endswith (strip (text chunk)) ":" then
              combine_list_loop None false (Some chunk) rest
            else
              let! out := combine_list_loop None false None rest in
              Ok (opt_list potential_list_intro ++ [chunk] ++ out)
        end
  end.

Definition CombineTextChunksIntoList_call (chunks : list Chunk) : result (list Chunk) :=
  combine_list_loop None false None chunks.

End ListCombining.

(* ================================================================== *)
(** ** Concrete inputs *)

(** A freshly built chunk without layout data or references. *)
Definition plain_chunk (i : Z) (t : string) (ty : BlockType) : Chunk :=
  mkChunk i t ty None None None None None.

(** The invariant pydantic's validation establishes on every constructed
    [Chunk]: a non-negative [id] and bounding boxes that pass
    [_verify_bounding_boxes]. *)
Definition chunk_valid (c : Chunk) : Prop :=
  0 <= id c /\ forallb verify_box (default [] (bounding_boxes c)) = true.

(** Total length of a field over a list of chunks. *)
Definition total_length {A} (f : Chunk -> option (list A)) (cs : list Chunk) : nat :=
  list_sum (map (fun c => List.length (default [] (f c))) cs).

Definition box_1 : Box := [(0, 0); (10, 0); (10, 10); (0, 10)].
Definition box_2 : Box := [(40, 40); (50, 40); (50, 50); (40, 50)].

Definition laid_out_chunk (i : Z) (t : string) (b : Box) (p : Z) : Chunk :=
  mkChunk i t TEXT None (Some [b]) (Some [p]) None None.

(** Two chunk objects: a title and a text chunk, both without heading. *)
Definition title_then_text : store :=
  <[1%positive := plain_chunk 0 "T" TITLE]> (<[2%positive := plain_chunk 1 "a" TEXT]> ∅).

(** A title object whose [heading] already refers to the text object
    that follows it in the list. *)
Definition title_with_heading : store :=
  <[1%positive := set_heading (plain_chunk 0 "T" TITLE) (Some 2%positive)]>
    (<[2%positive := plain_chunk 1 "a" TEXT]> ∅).

Definition combine_text_into_list : CombineSuccessiveSameTypeChunks :=
  mkCombineSuccessiveSameTypeChunks [TEXT] newline (Some LIST).

(** The level of a chunk in the heading hierarchy [AddHeadings] builds:
    0 for heading types, 1 for subheading types, 2 otherwise. *)
Definition tier_of (c : Chunk) : nat :=
  if type_in (chunk_type c) heading_types then 0
  else if type_in (chunk_type c) subheading_types then 1 else 2.

(** The chunks at [Q] have headings that lie in [Q] at a lower tier. *)
Definition heading_ok (st : store) (Q : loc -> Prop) (c : Chunk) : Prop :=
  match heading c with
  | None => True
  | Some h => Q h /\ exists ch, st !! h = Some ch /\ (tier_of ch < tier_of c)%nat
  end.

Definition tiered (st : store) (Q : loc -> Prop) : Prop :=
  forall l, Q l -> exists c, st !! l = Some c /\ heading_ok st Q c.

Definition cur_ok (st : store) (Q : loc -> Prop) (t : nat) (cur : option loc) : Prop :=
  match cur with
  | None => True
  | Some h => Q h /\ exists c, st !! h = Some c /\ tier_of c = t
  end.

(** Whether a string contains one of the terminal characters [.], [!], [?]. *)
Definition has_terminal (s : string) : bool :=
  existsb is_terminal (list_ascii_of_string s).

(** A sentence broken by a page footer and a page header. *)
Definition page_break_chunks : list Chunk :=
  [plain_chunk 0 "This is the beginning" TEXT;
   plain_chunk 1 "Page 1" PAGE_FOOTER;
   plain_chunk 2 "Page 2" PAGE_HEADER;
   plain_chunk 3 "that continues." TEXT].

(** Successive elements differ. *)
Fixpoint adj_distinct {A} (l : list A) : Prop :=
  match l with
  | x :: ((y :: _) as l') => x <> y /\ adj_distinct l'
  | _ => True
  end.

(** The text [RemoveRepeatedAdjacentChunks] compares. *)
Definition rr_norm (self : RemoveRepeatedAdjacentChunks) (c : Chunk) : string :=
  if rr_ignore_case self then lower (text c) else text c.

(** Every two successive elements are related by [R]. *)
Fixpoint adj_rel {A} (R : A -> A -> Prop) (l : list A) : Prop :=
  match l with
  | x :: ((y :: _) as l') => R x y /\ adj_rel R l'
  | _ => True
  end.

(** Two objects that [CombineSuccessiveSameTypeChunks] may leave side by
    side: if they have the same type, it is not one it combines. *)
Definition not_combinable_pair (self : CombineSuccessiveSameTypeChunks) (st : store)
  (x y : loc) : Prop :=
  forall cx cy, st !! x = Some cx -> st !! y = Some cy ->
  chunk_type cx = chunk_type cy ->
  type_in (chunk_type cx) (chunk_types_to_combine self) = false.

(** Three text chunks and a title between them. *)
Definition text_text_title_text : store :=
  <[1%positive := plain_chunk 0 "a" TEXT]> (<[2%positive := plain_chunk 1 "b" TEXT]>
  (<[3%positive := plain_chunk 2 "T" TITLE]> (<[4%positive := plain_chunk 3 "c" TEXT]> ∅))).

Definition combine_text : CombineSuccessiveSameTypeChunks :=
  mkCombineSuccessiveSameTypeChunks [TEXT] newline None.

(** The number of windows [sliding_window] returns for a text of length
    [n], a window size [w] and a stride [s]. *)
Definition sw_count (n w s : nat) : nat :=
  if (w <=? n)%nat then ((n - w) / s + 1)%nat else 0%nat.

(** [c in s] for a character [c]. *)
Definition has_char (c : ascii) (s : string) : bool :=
  existsb (fun a => Ascii.eqb a c) (list_ascii_of_string s).

Definition rx_passes (self : RemoveRegexPattern) (st : store) (l : loc) : bool :=
  match st !! l with Some c => rx_passes_through self c | None => false end.

Definition sp_ignored (ignore : list BlockType) (c : Chunk) : bool :=
  type_in (chunk_type c) ignore.

Definition sp_other (ignore : list BlockType) (c : Chunk) : bool :=
  negb (type_in (chunk_type c) ignore) && negb (bool_decide (chunk_type c = TEXT)).

Definition not_text_or_list (c : Chunk) : bool :=
  negb (type_in (chunk_type c) [TEXT; LIST]).

(** A list-item matcher for the witnesses: a line starting with [-]. *)
Definition dash_item (t : string) : bool := String.prefix "-" t.

Definition ascii_is_lower (a : ascii) : bool :=
  ((nat_of_ascii "a"%char <=? nat_of_ascii a)%nat
   && (nat_of_ascii a <=? nat_of_ascii "z"%char)%nat)%bool.

(* ################################################################## *)
(** * Properties *)

(* ================================================================== *)
(** ** Helper lemmas on [merge] *)

Lemma BlockType_call_raise (t : string) (e : exn) :
  BlockType_call t = Raise e -> e = ValueError.
Proof. unfold BlockType_call. destruct (List.find _ _); congruence. Qed.

Lemma set_iter_In (t : string) (l : list string) : In t l -> In t (set_iter l).
Proof.
  induction l as [|x l IH]; simpl; [tauto|].
  intros [<-|H]; [left; reflexivity|].
  destruct (String.eqb_spec t x) as [->|Hne]; [left; reflexivity|].
  right. apply filter_In. split; [auto|].
  apply negb_true_iff, String.eqb_neq. exact Hne.
Qed.

Lemma collect_unknown_raises (ts acc : list string) (t : string) :
  In t ts -> BlockType_call t = Raise ValueError ->
  collect_unknown ts acc = Raise ValueError.
Proof.
  revert acc. induction ts as [|x ts IH]; intros acc Hin Ht; simpl in *; [tauto|].
  destruct Hin as [->|Hin].
  - rewrite Ht. reflexivity.
  - destruct (BlockType_call x) as [b|e] eqn:Ex.
    + apply IH; assumption.
    + apply BlockType_call_raise in Ex. subst e. reflexivity.
Qed.

Lemma fold_min_le (l : list Z) (a : Z) :
  fold_left Z.min l a <= a /\ Forall (fun x => fold_left Z.min l a <= x) l.
Proof.
  revert a. induction l as [|x l IH]; intros a; simpl; [split; [lia|constructor]|].
  destruct (IH (Z.min a x)) as [H1 H2]. split; [lia|].
  constructor; [lia|exact H2].
Qed.

Lemma fold_min_in (l : list Z) (a : Z) :
  fold_left Z.min l a = a \/ In (fold_left Z.min l a) l.
Proof.
  revert a. induction l as [|x l IH]; intros a; simpl; [left; reflexivity|].
  destruct (IH (Z.min a x)) as [H|H]; [|right; right; exact H].
  rewrite H. destruct (Z.min_spec a x) as [[_ ->]|[_ ->]]; [left|right; left]; reflexivity.
Qed.

(** A successful merge with a non-empty list builds the merged chunk
    from the receiver's type, the minimum id and the combined fields. *)
Lemma merge_cons_ok (self o : Chunk) (os : list Chunk) (sep : string) (c : Chunk) :
  merge self (o :: os) sep = Ok c ->
  check_incompatible_properties self (o :: os) = [] /\
  c = mkChunk (fold_left Z.min (map id (o :: os)) (id self))
              (join sep (map text (self :: o :: os))) (chunk_type self) None
              (combine_field bounding_boxes self (self :: o :: os))
              (combine_field pages self (self :: o :: os)) None None.
Proof.
  unfold merge.
  destruct (check_incompatible_properties self (o :: os)) eqn:Hi; [|discriminate].
  remember (fold_left Z.min (map id (o :: os)) (id self)) as m.
  remember (join sep (map text (self :: o :: os))) as t.
  remember (combine_field bounding_boxes self (self :: o :: os)) as bb.
  remember (combine_field pages self (self :: o :: os)) as pg.
  unfold Chunk_new. cbn -[Z.leb forallb].
  destruct (0 <=? m); [|discriminate]. cbn -[forallb].
  destruct bb as [b|]; cbn -[forallb].
  - destruct (forallb verify_box b); [|discriminate].
    destruct pg; cbn; intros H; injection H as <-; auto.
  - destruct pg; cbn; intros H; injection H as <-; auto.
Qed.

Lemma merge_cons_ok_iff (self o : Chunk) (os : list Chunk) (sep : string) :
  check_incompatible_properties self (o :: os) = [] ->
  0 <= fold_left Z.min (map id (o :: os)) (id self) ->
  forallb verify_box (default [] (combine_field bounding_boxes self (self :: o :: os))) = true ->
  merge self (o :: os) sep =
  Ok (mkChunk (fold_left Z.min (map id (o :: os)) (id self))
              (join sep (map text (self :: o :: os))) (chunk_type self) None
              (combine_field bounding_boxes self (self :: o :: os))
              (combine_field pages self (self :: o :: os)) None None).
Proof.
  intros Hi Hm Hb. unfold merge. rewrite Hi.
  remember (fold_left Z.min (map id (o :: os)) (id self)) as m.
  remember (join sep (map text (self :: o :: os))) as t.
  remember (combine_field bounding_boxes self (self :: o :: os)) as bb.
  remember (combine_field pages self (self :: o :: os)) as pg.
  unfold Chunk_new. cbn -[Z.leb forallb].
  apply Z.leb_le in Hm. rewrite Hm. cbn -[forallb].
  destruct bb as [b|]; cbn -[forallb] in *.
  - rewrite Hb. destruct pg; reflexivity.
  - destruct pg; reflexivity.
Qed.

(* ================================================================== *)
(** ** C1: converting the parser output *)

(** C1 (code_bug). [parser_output_to_chunks] passes the block index as
    the keyword [idx], while the required field of [Chunk] is [id]: on
    every document with at least one text block the conversion raises a
    validation error instead of producing one chunk per block. *)
Theorem parser_output_to_chunks_raises (b : TextBlock) (bs : list TextBlock) :
  parser_output_to_chunks (mkParserOutput (b :: bs)) = Raise ValidationError.
Proof. reflexivity. Qed.

(* ================================================================== *)
(** ** C2: unknown chunk types in the filter configuration *)

(** C2 (code_bug). A configuration list containing the unknown type
    string ["NotAType"], anywhere in the list, makes
    [ChunkTypeFilter.__init__] raise [ValueError]: [BlockType(...)]
    raises [ValueError], which the [except NameError] clause does not
    catch, so the string is never filtered out with a warning. *)
Theorem ChunkTypeFilter_init_unknown_raises (pre post : list string) :
  ChunkTypeFilter_init (pre ++ "NotAType" :: post) = Raise ValueError.
Proof.
  unfold ChunkTypeFilter_init, filter_and_warn_for_unknown_types.
  rewrite (collect_unknown_raises _ _ "NotAType"); [reflexivity| |reflexivity].
  apply set_iter_In, in_or_app. right. left. reflexivity.
Qed.

(* ================================================================== *)
(** ** C9: idempotence of [RemoveRepeatedAdjacentChunks] *)

Lemma rr_loop_idem (self : RemoveRepeatedAdjacentChunks) (cur : type_map)
  (chunks : list Chunk) :
  rr_loop self cur (rr_loop self cur chunks) = rr_loop self cur chunks.
Proof.
  revert cur. induction chunks as [|c chunks IH]; intros cur; [reflexivity|].
  simpl. destruct (type_in (chunk_type c) (rr_chunk_types self)) eqn:Ht; simpl.
  - set (ct := if rr_ignore_case self then lower (text c) else text c).
    destruct (cur (chunk_type c)) as [m|] eqn:Hc.
    + match goal with |- context [negb ?b] => destruct b eqn:He end; simpl.
      * apply IH.
      * rewrite Ht, Hc. fold ct. rewrite He. simpl. f_equal. apply IH.
    + simpl. rewrite Ht, Hc. f_equal. apply IH.
  - rewrite Ht. simpl. f_equal. apply IH.
Qed.

(** C9. [RemoveRepeatedAdjacentChunks] is idempotent: for every
    configuration and input, applying it to its own output returns that
    output. *)
Theorem RemoveRepeatedAdjacentChunks_idempotent
  (self : RemoveRepeatedAdjacentChunks) (chunks : list Chunk) :
  RemoveRepeatedAdjacentChunks_call self (RemoveRepeatedAdjacentChunks_call self chunks)
  = RemoveRepeatedAdjacentChunks_call self chunks.
Proof. apply rr_loop_idem. Qed.

(* ================================================================== *)
(** ** C10: merging with no other chunk *)

(** C10. Merging a chunk with an empty list returns the receiver itself:
    as a value it is returned unchanged (no validation, every field kept),
    and as an object the same object is returned and the heap is
    untouched (no copy). *)
Theorem merge_empty_identity :
  (forall (self : Chunk) (sep : string), merge self [] sep = Ok self) /\
  (forall (st : store) (self : loc) (sep : string),
      merge_obj st self [] sep = Ok (self, st)).
Proof. split; reflexivity. Qed.

(* ================================================================== *)
(** ** C3: nullability check and concatenation in [merge] *)

Lemma forallb_concat {A} (f : A -> bool) (L : list (list A)) :
  forallb f (List.concat L) = forallb (forallb f) L.
Proof.
  induction L as [|l L IH]; [reflexivity|].
  simpl. rewrite forallb_app, IH. reflexivity.
Qed.

Lemma existsb_all_false {A} (f : A -> bool) (l : list A) :
  (forall x, In x l -> f x = false) -> existsb f l = false.
Proof.
  induction l as [|x l IH]; intros H; [reflexivity|].
  simpl. rewrite (H x (or_introl eq_refl)). apply IH. intros y Hy. apply H. right. exact Hy.
Qed.

Lemma length_concat_sum {A} (L : list (list A)) :
  List.length (List.concat L) = list_sum (map (@List.length A) L).
Proof.
  induction L as [|l L IH]; [reflexivity|].
  simpl. rewrite length_app, IH. reflexivity.
Qed.

Lemma merge_min_nonneg (self : Chunk) (others : list Chunk) :
  Forall chunk_valid (self :: others) ->
  0 <= fold_left Z.min (map id others) (id self).
Proof.
  intros Hv. inversion Hv as [|? ? [Hs _] Ho]; subst.
  destruct (fold_min_in (map id others) (id self)) as [->|Hin]; [exact Hs|].
  apply in_map_iff in Hin as [x [<- Hx]].
  rewrite List.Forall_forall in Ho. apply (Ho x Hx).
Qed.

(** C3. Merging a receiver with a non-empty list raises [ValueError]
    when some other chunk differs from the receiver in whether
    [bounding_boxes] or [pages] is [None]; when every chunk (all valid,
    as constructed chunks are) has both fields present, the merge
    succeeds and the merged fields are the inputs' lists concatenated in
    order, of length the sum of the input lengths. *)
Theorem merge_nullability_and_concatenation (self o : Chunk) (os : list Chunk)
  (sep : string) :
  ((exists x, In x (o :: os) /\
      (is_none (bounding_boxes x) <> is_none (bounding_boxes self) \/
       is_none (pages x) <> is_none (pages self))) ->
   merge self (o :: os) sep = Raise ValueError)
  /\
  (Forall (fun x => chunk_valid x /\ bounding_boxes x <> None /\ pages x <> None)
          (self :: o :: os) ->
   exists c, merge self (o :: os) sep = Ok c /\
     bounding_boxes c =
       Some (List.concat (map (fun x => default [] (bounding_boxes x)) (self :: o :: os))) /\
     pages c = Some (List.concat (map (fun x => default [] (pages x)) (self :: o :: os))) /\
     List.length (default [] (bounding_boxes c)) = total_length bounding_boxes (self :: o :: os) /\
     List.length (default [] (pages c)) = total_length pages (self :: o :: os)).
Proof.
  split.
  - intros [x [Hx Hd]]. unfold merge.
    destruct (check_incompatible_properties self (o :: os)) eqn:Hi; [|reflexivity].
    exfalso. unfold check_incompatible_properties in Hi.
    destruct Hd as [Hd|Hd].
    + assert (E : existsb (fun c => negb (Bool.eqb (is_none (bounding_boxes c))
                      (is_none (bounding_boxes self)))) (o :: os) = true).
      { apply existsb_exists. exists x. split; [exact Hx|].
        destruct (is_none (bounding_boxes x)), (is_none (bounding_boxes self));
          simpl; congruence. }
      rewrite E in Hi. discriminate.
    + assert (E : existsb (fun c => negb (Bool.eqb (is_none (pages c))
                      (is_none (pages self)))) (o :: os) = true).
      { apply existsb_exists. exists x. split; [exact Hx|].
        destruct (is_none (pages x)), (is_none (pages self)); simpl; congruence. }
      rewrite E in Hi. apply app_eq_nil in Hi as [_ Hi]. discriminate.
  - intros Hall.
    assert (Hv : Forall chunk_valid (self :: o :: os)).
    { eapply List.Forall_impl; [|exact Hall]. intros x [H _]. exact H. }
    assert (Hself : bounding_boxes self <> None /\ pages self <> None).
    { inversion Hall as [|? ? [_ H] _]. exact H. }
    assert (Hi : check_incompatible_properties self (o :: os) = []).
    { unfold check_incompatible_properties.
      assert (Ho : Forall (fun x => bounding_boxes x <> None /\ pages x <> None) (o :: os)).
      { inversion Hall as [|? ? _ H]. eapply List.Forall_impl; [|exact H]. intros y [_ H']. exact H'. }
      destruct Hself as [Hb Hp].
      rewrite !existsb_all_false; [reflexivity| |];
        rewrite List.Forall_forall in Ho; intros x Hx; destruct (Ho x Hx) as [Hbx Hpx];
        [destruct (pages x), (pages self) | destruct (bounding_boxes x), (bounding_boxes self)];
        simpl; congruence. }
    destruct Hself as [Hb Hp].
    assert (Hbb : combine_field bounding_boxes self (self :: o :: os) =
                  Some (List.concat (map (fun x => default [] (bounding_boxes x)) (self :: o :: os)))).
    { unfold combine_field. destruct (bounding_boxes self); [reflexivity|congruence]. }
    assert (Hpg : combine_field pages self (self :: o :: os) =
                  Some (List.concat (map (fun x => default [] (pages x)) (self :: o :: os)))).
    { unfold combine_field. destruct (pages self); [reflexivity|congruence]. }
    assert (Hboxes : forallb verify_box
              (default [] (combine_field bounding_boxes self (self :: o :: os))) = true).
    { rewrite Hbb. cbn [default from_option Datatypes.id]. rewrite forallb_concat. apply forallb_forall.
      intros l Hl. apply in_map_iff in Hl as [x [<- Hx]].
      rewrite List.Forall_forall in Hv. apply (Hv x Hx). }
    eexists. split.
    + apply merge_cons_ok_iff; [exact Hi| |exact Hboxes].
      apply merge_min_nonneg. exact Hv.
    + cbn [bounding_boxes pages]. rewrite Hbb, Hpg.
      split; [reflexivity|]. split; [reflexivity|].
      unfold total_length. cbn [default from_option Datatypes.id]. rewrite !length_concat_sum, !map_map.
      split; reflexivity.
Qed.

Lemma merge_nullability_and_concatenation_witness :
  merge (laid_out_chunk 0 "a" box_1 1) [plain_chunk 1 "b" TEXT] " " = Raise ValueError /\
  exists c,
    merge (laid_out_chunk 0 "a" box_1 1) [laid_out_chunk 1 "b" box_2 2] " " = Ok c /\
    bounding_boxes c = Some [box_1; box_2] /\ pages c = Some [1; 2] /\
    List.length (default [] (bounding_boxes c)) = 2%nat /\ List.length (default [] (pages c)) = 2%nat.
Proof.
  split.
  - apply (proj1 (merge_nullability_and_concatenation
                    (laid_out_chunk 0 "a" box_1 1) (plain_chunk 1 "b" TEXT) [] " ")).
    exists (plain_chunk 1 "b" TEXT). split; [left; reflexivity|]. left. simpl. congruence.
  - destruct (proj2 (merge_nullability_and_concatenation
                       (laid_out_chunk 0 "a" box_1 1) (laid_out_chunk 1 "b" box_2 2) [] " "))
      as [c [H1 [H2 [H3 [H4 H5]]]]].
    + repeat constructor; try (vm_compute; reflexivity); discriminate.
    + exists c. split; [exact H1|]. split; [exact H2|]. split; [exact H3|].
      split; [exact H4|exact H5].
Defined.

(* ================================================================== *)
(** ** C6: the id of a merged chunk *)

(** C6 (counterexample). Merging a receiver with id 5 and a chunk with
    id 2 gives id 2, not the receiver's id. *)
Lemma merge_id_not_receiver :
  exists c, merge (plain_chunk 5 "a" TEXT) [plain_chunk 2 "b" TEXT] " " = Ok c /\
            id c = 2 /\ id c <> id (plain_chunk 5 "a" TEXT).
Proof. eexists. split; [reflexivity|]. simpl. split; [reflexivity|discriminate]. Qed.

(** C6 (amended). A successful merge of a receiver with a non-empty list
    gives the minimum of all the ids being merged. *)
Theorem merge_id_is_min (self o : Chunk) (os : list Chunk) (sep : string) (c : Chunk) :
  merge self (o :: os) sep = Ok c ->
  (forall x, In x (self :: o :: os) -> id c <= id x) /\
  (exists x, In x (self :: o :: os) /\ id c = id x).
Proof.
  intros H. apply merge_cons_ok in H as [_ ->]. cbn [id].
  destruct (fold_min_le (map id (o :: os)) (id self)) as [Hs Ho].
  split.
  - intros x [<-|Hx]; [exact Hs|].
    rewrite List.Forall_forall in Ho. apply Ho, in_map. exact Hx.
  - destruct (fold_min_in (map id (o :: os)) (id self)) as [E|Hin].
    + exists self. split; [left; reflexivity|exact E].
    + apply in_map_iff in Hin as [x [E Hx]]. exists x. split; [right; exact Hx|].
      symmetry. exact E.
Qed.

Lemma merge_id_is_min_witness :
  merge (plain_chunk 5 "a" TEXT) [plain_chunk 2 "b" TEXT] " "
    = Ok (plain_chunk 2 "a b" TEXT) /\
  (forall x, In x [plain_chunk 5 "a" TEXT; plain_chunk 2 "b" TEXT] -> 2 <= id x) /\
  (exists x, In x [plain_chunk 5 "a" TEXT; plain_chunk 2 "b" TEXT] /\ 2 = id x).
Proof.
  split; [reflexivity|].
  exact (merge_id_is_min (plain_chunk 5 "a" TEXT) (plain_chunk 2 "b" TEXT) [] " "
           (plain_chunk 2 "a b" TEXT) eq_refl).
Defined.

(* ================================================================== *)
(** ** C5: processors write into their input objects *)

(** C5 (code_bug). [AddHeadings] writes [heading] into the text object it
    was given ([list(chunks)] copies only the list), and
    [CombineSuccessiveSameTypeChunks] with a retype target rewrites
    [chunk_type] of an input object that forms a run on its own. *)
Theorem processors_mutate_input_objects :
  (exists st', AddHeadings_call title_then_text [1%positive; 2%positive]
                = Ok ([1%positive; 2%positive], st') /\
     title_then_text !! 2%positive = Some (plain_chunk 1 "a" TEXT) /\
     st' !! 2%positive = Some (set_heading (plain_chunk 1 "a" TEXT) (Some 1%positive))) /\
  (exists st', CombineSuccessiveSameTypeChunks_call combine_text_into_list
                 title_then_text [2%positive] = Ok ([2%positive], st') /\
     title_then_text !! 2%positive = Some (plain_chunk 1 "a" TEXT) /\
     st' !! 2%positive = Some (plain_chunk 1 "a" LIST)).
Proof.
  split; eexists; split; [reflexivity| |reflexivity|]; split; reflexivity.
Qed.

(* ================================================================== *)
(** ** C8: depth of heading chains after [AddHeadings] *)

(** C8 (counterexample). A title object that already carries a heading
    keeps it: with the title referring to the text chunk after it,
    [AddHeadings] closes a cycle (the text chunk reaches itself in two
    hops) and a third hop exists. *)
Lemma AddHeadings_cycle_from_preset_heading :
  exists st', AddHeadings_call title_with_heading [1%positive; 2%positive]
               = Ok ([1%positive; 2%positive], st') /\
    reach st' 2 2%positive = Some 2%positive /\
    reach st' 3 2%positive <> None.
Proof. eexists. split; [reflexivity|]. split; [reflexivity|discriminate]. Qed.

Lemma tier_of_set_heading (c : Chunk) (v : option loc) :
  tier_of (set_heading c v) = tier_of c.
Proof. reflexivity. Qed.

Lemma tiered_write (st : store) (Q : loc -> Prop) (l : loc) (c : Chunk) (v : option loc) :
  tiered st Q -> st !! l = Some c ->
  (v = None \/ exists h, v = Some h /\ Q h /\
                 exists ch, st !! h = Some ch /\ (tier_of ch < tier_of c)%nat) ->
  tiered (<[l := set_heading c v]> st) (fun p => Q p \/ p = l).
Proof.
  intros Ht Hl Hv p Hp.
  destruct (decide (p = l)) as [->|Hne].
  - exists (set_heading c v). split; [apply lookup_insert_eq|].
    unfold heading_ok. cbn [heading set_heading].
    destruct Hv as [->|[h [-> [Qh [ch [Hh Hlt]]]]]]; [exact I|].
    split; [left; exact Qh|].
    destruct (decide (h = l)) as [->|Hhl].
    + rewrite Hl in Hh. injection Hh as <-. lia.
    + exists ch. rewrite lookup_insert_ne by congruence. split; [exact Hh|exact Hlt].
  - destruct Hp as [Qp|]; [|contradiction].
    destruct (Ht p Qp) as [c0 [Hc0 Hok]].
    exists c0. rewrite lookup_insert_ne by congruence. split; [exact Hc0|].
    unfold heading_ok in *. destruct (heading c0) as [h|]; [|exact I].
    destruct Hok as [Qh [ch [Hh Hlt]]]. split; [left; exact Qh|].
    destruct (decide (h = l)) as [->|Hhl].
    + exists (set_heading c v). rewrite lookup_insert_eq. rewrite Hl in Hh.
      injection Hh as <-. split; [reflexivity|exact Hlt].
    + exists ch. rewrite lookup_insert_ne by congruence. split; [exact Hh|exact Hlt].
Qed.

Lemma cur_ok_write (st : store) (Q : loc -> Prop) (l : loc) (c : Chunk) (v : option loc)
  (t : nat) (cur : option loc) :
  st !! l = Some c -> cur_ok st Q t cur ->
  cur_ok (<[l := set_heading c v]> st) (fun p => Q p \/ p = l) t cur.
Proof.
  intros Hl Hc. destruct cur as [h|]; [|exact I].
  destruct Hc as [Qh [ch [Hh Ht]]]. split; [left; exact Qh|].
  destruct (decide (h = l)) as [->|Hhl].
  - exists (set_heading c v). rewrite lookup_insert_eq. rewrite Hl in Hh.
    injection Hh as <-. split; [reflexivity|exact Ht].
  - exists ch. rewrite lookup_insert_ne by congruence. split; [exact Hh|exact Ht].
Qed.

Lemma tiered_ext (st : store) (Q Q' : loc -> Prop) :
  (forall p, Q p <-> Q' p) -> tiered st Q -> tiered st Q'.
Proof.
  intros HQ Ht p Hp. apply HQ in Hp. destruct (Ht p Hp) as [c [Hc Hok]].
  exists c. split; [exact Hc|]. unfold heading_ok in *.
  destruct (heading c) as [h|]; [|exact I].
  destruct Hok as [Qh Hch]. split; [apply HQ; exact Qh|exact Hch].
Qed.

Lemma add_headings_loop_tiered (rest : list loc) :
  forall (st : store) (Q : loc -> Prop) (ch csh : option loc),
  (forall p, In p rest -> exists c, st !! p = Some c) ->
  (forall p c, In p rest -> st !! p = Some c -> tier_of c = 0%nat -> Q p) ->
  tiered st Q -> cur_ok st Q 0 ch -> cur_ok st Q 1 csh ->
  exists st', add_headings_loop st ch csh rest = Ok st' /\
              tiered st' (fun p => Q p \/ In p rest).
Proof.
  induction rest as [|l rest IH]; intros st Q ch csh Hdom Htitle Ht Hch Hcsh.
  - exists st. split; [reflexivity|].
    eapply tiered_ext; [|exact Ht]. intros p. simpl. tauto.
  - destruct (Hdom l (or_introl eq_refl)) as [c Hc].
    assert (Hd : deref st l = Ok c) by (unfold deref; rewrite Hc; reflexivity).
    assert (Hdom' : forall p, In p rest -> exists c', st !! p = Some c')
      by (intros p Hp; apply Hdom; right; exact Hp).
    simpl. rewrite Hd. simpl.
    destruct (type_in (chunk_type c) heading_types) eqn:Hh.
    + (* a heading: it becomes [current_heading] *)
      assert (Ql : Q l) by (apply (Htitle l c); [left; reflexivity|exact Hc|
                                                 unfold tier_of; rewrite Hh; reflexivity]).
      destruct (IH st Q (Some l) None) as [st' [E Ht']]; auto.
      * intros p c' Hp. apply Htitle. right. exact Hp.
      * split; [exact Ql|]. exists c. split; [exact Hc|unfold tier_of; rewrite Hh; reflexivity].
      * exact I.
      * exists st'. split; [exact E|]. eapply tiered_ext; [|exact Ht'].
        intros p. simpl. split; [tauto|]. intros [H|[<-|H]]; auto.
    + assert (Hdom1 : forall v p, In p rest ->
                 exists c', (<[l := set_heading c v]> st) !! p = Some c').
      { intros v p Hp. destruct (decide (p = l)) as [->|Hne].
        - eexists. apply lookup_insert_eq.
        - rewrite lookup_insert_ne by congruence. apply Hdom'. exact Hp. }
      assert (Htitle1 : forall v p c', In p rest ->
                 (<[l := set_heading c v]> st) !! p = Some c' -> tier_of c' = 0%nat ->
                 Q p \/ p = l).
      { intros v p c' Hp Hp' H0. destruct (decide (p = l)) as [->|Hne]; [right; reflexivity|].
        left. rewrite lookup_insert_ne in Hp' by congruence.
        apply (Htitle p c'); [right; exact Hp|exact Hp'|exact H0]. }
      assert (Hext : forall st', tiered st' (fun p => (Q p \/ p = l) \/ In p rest) ->
                       tiered st' (fun p => Q p \/ In p (l :: rest))).
      { intros st' H. eapply tiered_ext; [|exact H]. intros p. simpl.
        split; [intros [[Hq|<-]|Hr]; auto|intros [Hq|[<-|Hr]]; auto]. }
      unfold write_heading. rewrite Hd. simpl.
      destruct (type_in (chunk_type c) subheading_types) eqn:Hs.
      * (* a subheading: it gets [current_heading] and becomes [current_subheading] *)
        assert (Tc : tier_of c = 1%nat) by (unfold tier_of; rewrite Hh, Hs; reflexivity).
        destruct (IH (<[l := set_heading c ch]> st) (fun p => Q p \/ p = l) ch (Some l))
          as [st' [E Ht']].
        -- apply Hdom1.
        -- apply Htitle1.
        -- apply tiered_write; [exact Ht|exact Hc|].
           destruct ch as [h|]; [right|left; reflexivity].
           destruct Hch as [Qh [c0 [H0 T0]]]. exists h. split; [reflexivity|].
           split; [exact Qh|]. exists c0. split; [exact H0|lia].
        -- apply cur_ok_write; [exact Hc|exact Hch].
        -- split; [right; reflexivity|]. exists (set_heading c ch).
           split; [apply lookup_insert_eq|rewrite tier_of_set_heading; exact Tc].
        -- exists st'. split; [exact E|apply Hext; exact Ht'].
      * (* any other chunk: [current_subheading or current_heading] *)
        assert (Tc : tier_of c = 2%nat) by (unfold tier_of; rewrite Hh, Hs; reflexivity).
        destruct (IH (<[l := set_heading c (py_or csh ch)]> st) (fun p => Q p \/ p = l) ch csh)
          as [st' [E Ht']].
        -- apply Hdom1.
        -- apply Htitle1.
        -- apply tiered_write; [exact Ht|exact Hc|].
           destruct csh as [s|]; simpl.
           ++ right. destruct Hcsh as [Qs [c0 [H0 T0]]]. exists s. split; [reflexivity|].
              split; [exact Qs|]. exists c0. split; [exact H0|lia].
           ++ destruct ch as [h|]; [right|left; reflexivity].
              destruct Hch as [Qh [c0 [H0 T0]]]. exists h. split; [reflexivity|].
              split; [exact Qh|]. exists c0. split; [exact H0|lia].
        -- apply cur_ok_write; [exact Hc|exact Hch].
        -- apply cur_ok_write; [exact Hc|exact Hcsh].
        -- exists st'. split; [exact E|apply Hext; exact Ht'].
Qed.

Lemma tier_of_le_2 (c : Chunk) : (tier_of c <= 2)%nat.
Proof.
  unfold tier_of. destruct (type_in _ heading_types); [lia|].
  destruct (type_in _ subheading_types); lia.
Qed.

Lemma tiered_reach (st : store) (Q : loc -> Prop) (l : loc) (c : Chunk) (k : nat) :
  tiered st Q -> Q l -> st !! l = Some c ->
  forall m, reach st k l = Some m ->
  exists cm, st !! m = Some cm /\ Q m /\ (tier_of cm + k <= tier_of c)%nat.
Proof.
  intros Ht Ql Hc. induction k as [|k IH]; intros m Hm.
  - simpl in Hm. injection Hm as <-. exists c. split; [exact Hc|]. split; [exact Ql|lia].
  - simpl in Hm. destruct (reach st k l) as [m'|] eqn:E; [|discriminate].
    destruct (IH m' eq_refl) as [cm' [Hm' [Qm' Hle]]].
    rewrite Hm' in Hm.
    destruct (Ht m' Qm') as [c' [Hc' Hok]]. rewrite Hm' in Hc'. injection Hc' as <-.
    unfold heading_ok in Hok. rewrite Hm in Hok.
    destruct Hok as [Qm [cm [Hcm Hlt]]].
    exists cm. split; [exact Hcm|]. split; [exact Qm|lia].
Qed.

Lemma reach_add (st : store) (i d : nat) (l : loc) :
  reach st (i + d) l = match reach st i l with Some m => reach st d m | None => None end.
Proof.
  induction d as [|d IH].
  - rewrite Nat.add_0_r. destruct (reach st i l); reflexivity.
  - rewrite Nat.add_succ_r. simpl. rewrite IH. destruct (reach st i l); reflexivity.
Qed.

(** C8 (amended). When no heading-type input chunk ([TITLE], [title])
    already carries a heading reference (as for chunks built by the
    pipeline, which sets headings only here), then after [AddHeadings]
    following [heading] from any output chunk stops within 2 hops (a
    third hop never exists) and never returns to a chunk already
    visited. *)
Theorem AddHeadings_heading_depth (st : store) (chunks : list loc) :
  (forall l, In l chunks -> exists c, st !! l = Some c /\
     (type_in (chunk_type c) heading_types = true -> heading c = None)) ->
  exists st', AddHeadings_call st chunks = Ok (chunks, st') /\
    forall l, In l chunks ->
      (forall k, (3 <= k)%nat -> reach st' k l = None) /\
      (forall i j m, (i < j)%nat -> reach st' i l = Some m -> reach st' j l <> Some m).
Proof.
  intros Hin.
  set (Q0 := fun p => In p chunks /\ exists c, st !! p = Some c /\ tier_of c = 0%nat).
  destruct (add_headings_loop_tiered chunks st Q0 None None) as [st' [E Ht]].
  - intros p Hp. destruct (Hin p Hp) as [c [Hc _]]. exists c. exact Hc.
  - intros p c Hp Hc H0. split; [exact Hp|]. exists c. split; [exact Hc|exact H0].
  - intros p [Hp [c [Hc H0]]]. exists c. split; [exact Hc|].
    destruct (Hin p Hp) as [c' [Hc' Hnone]]. rewrite Hc in Hc'. injection Hc' as <-.
    unfold heading_ok. rewrite Hnone; [exact I|].
    unfold tier_of in H0. destruct (type_in _ heading_types); [reflexivity|].
    destruct (type_in _ subheading_types); discriminate.
  - exact I.
  - exact I.
  - exists st'. split; [unfold AddHeadings_call; rewrite E; reflexivity|].
    intros l Hl.
    destruct (Ht l (or_intror Hl)) as [c [Hc _]].
    split.
    + intros k Hk. destruct (reach st' k l) as [m|] eqn:Em; [|reflexivity].
      destruct (tiered_reach st' _ l c k Ht (or_intror Hl) Hc m Em) as [cm [_ [_ Hle]]].
      pose proof (tier_of_le_2 c). lia.
    + intros i j m Hij Hi Hj.
      destruct (tiered_reach st' _ l c i Ht (or_intror Hl) Hc m Hi) as [cm [Hcm [Qm _]]].
      replace j with (i + (j - i))%nat in Hj by lia.
      rewrite reach_add, Hi in Hj.
      destruct (tiered_reach st' _ m cm (j - i) Ht Qm Hcm m Hj) as [cm' [Hcm' [_ Hle]]].
      rewrite Hcm in Hcm'. injection Hcm' as <-. lia.
Qed.

Lemma AddHeadings_heading_depth_witness :
  exists st', AddHeadings_call title_then_text [1%positive; 2%positive]
               = Ok ([1%positive; 2%positive], st') /\
    forall l, In l [1%positive; 2%positive] ->
      (forall k, (3 <= k)%nat -> reach st' k l = None) /\
      (forall i j m, (i < j)%nat -> reach st' i l = Some m -> reach st' j l <> Some m).
Proof.
  apply AddHeadings_heading_depth.
  intros l [<-|[<-|[]]]; eexists; (split; [reflexivity|]); intros H;
    [reflexivity|discriminate].
Defined.

(* ================================================================== *)
(** ** [RemoveRegexPattern] *)

(** C4 (counterexample). The whole-text check runs on [chunk.text] as it
    is, not on its stripped form: with pattern [" x"], the text [" x"]
    strips to ["x"], which does not match [^ x$], yet the chunk is
    dropped instead of being rewritten to ["y"]. *)
Lemma RemoveRegexPattern_anchor_on_unstripped_text :
  let self := RemoveRegexPattern_init " x" "y" false [] false in
  let st := <[1%positive := plain_chunk 0 " x" TEXT]> (∅ : store) in
  re_match lit_re ("^" ++ pattern self ++ "$") false (strip " x") = false /\
  strip (re_sub lit_re (pattern self) (replace_with self) " x" 0 false) = "y" /\
  RemoveRegexPattern_call lit_re self st [1%positive] = Ok ([], st).
Proof. vm_compute. split; [reflexivity|split; reflexivity]. Qed.

(** C4 (amended). For a [RemoveRegexPattern] with
    [skip_partial_replacements = false] and [ignore_case = false], a chunk
    of a configured type whose text, as it is, does not match
    [^pattern$] is handled as follows: every match of the pattern is
    replaced by [replace_with] ([re.sub] with [count = 0]), the result is
    stripped, and a new object [l'] (absent from the store before) is
    created as a copy of the chunk carrying that text; the chunk is
    dropped when the stripped text is empty and otherwise [l'] is emitted
    in its place. The input object is left unchanged. *)
Theorem RemoveRegexPattern_substitutes_into_copy (R : ReModule)
  (self : RemoveRegexPattern) (st : store) (l : loc) (rest : list loc) (c : Chunk) :
  skip_partial_replacements self = false ->
  ignore_case self = false ->
  st !! l = Some c ->
  match rx_chunk_types self with None => True | Some ts => In (chunk_type c) ts end ->
  re_match R ("^" ++ pattern self ++ "$") false (text c) = false ->
  exists l', st !! l' = None /\
    (<[l' := set_text c (strip (re_sub R (pattern self) (replace_with self) (text c) 0 false))]> st)
      !! l = Some c /\
    RemoveRegexPattern_call R self st (l :: rest) =
      let new_text := strip (re_sub R (pattern self) (replace_with self) (text c) 0 false) in
      let st1 := <[l' := set_text c new_text]> st in
      if String.eqb new_text EmptyString then RemoveRegexPattern_call R self st1 rest
      else let! '(out, st') := RemoveRegexPattern_call R self st1 rest in Ok (l' :: out, st').
Proof.
  intros Hskip Hic Hc Hty Hm.
  assert (Hfresh : st !! fresh (dom st) = None)
    by (apply not_elem_of_dom; apply is_fresh).
  exists (fresh (dom st)). split; [exact Hfresh|]. split.
  - rewrite lookup_insert_ne; [exact Hc|]. intros E. rewrite E in Hfresh. congruence.
  - unfold RemoveRegexPattern_call. simpl. unfold deref. rewrite Hc. simpl.
    assert (Hp : rx_passes_through self c = false).
    { unfold rx_passes_through. destruct (rx_chunk_types self) as [ts|]; [|reflexivity].
      unfold type_in. rewrite bool_decide_eq_true_2; [reflexivity|].
      apply list_elem_of_In. exact Hty. }
    rewrite Hp, Hic, Hm, Hskip. unfold alloc. simpl.
    rewrite insert_insert_eq. reflexivity.
Qed.

Lemma RemoveRegexPattern_substitutes_into_copy_witness :
  exists l', ((<[1%positive := plain_chunk 0 "x a x" TEXT]> ∅ : store) !! l' = None) /\
    (<[l' := set_text (plain_chunk 0 "x a x" TEXT)
               (strip (lit_sub "x" "y" "x a x" 0 false))]>
       (<[1%positive := plain_chunk 0 "x a x" TEXT]> ∅ : store)) !! 1%positive
      = Some (plain_chunk 0 "x a x" TEXT) /\
    RemoveRegexPattern_call lit_re (RemoveRegexPattern_init "x" "y" false [] false)
      (<[1%positive := plain_chunk 0 "x a x" TEXT]> ∅) [1%positive] =
      let new_text := strip (lit_sub "x" "y" "x a x" 0 false) in
      let st1 := <[l' := set_text (plain_chunk 0 "x a x" TEXT) new_text]>
                   (<[1%positive := plain_chunk 0 "x a x" TEXT]> ∅) in
      if String.eqb new_text EmptyString
      then RemoveRegexPattern_call lit_re (RemoveRegexPattern_init "x" "y" false [] false) st1 []
      else let! '(out, st') := RemoveRegexPattern_call lit_re
                                  (RemoveRegexPattern_init "x" "y" false [] false) st1 [] in
           Ok (l' :: out, st').
Proof.
  exact (RemoveRegexPattern_substitutes_into_copy lit_re
           (RemoveRegexPattern_init "x" "y" false [] false)
           (<[1%positive := plain_chunk 0 "x a x" TEXT]> ∅) 1%positive []
           (plain_chunk 0 "x a x" TEXT) eq_refl eq_refl eq_refl I eq_refl).
Defined.

(* ================================================================== *)
(** ** [SplitTextIntoSentences] *)

Lemma substring_chars (a : ascii) (s : string) :
  forall i k, In a (list_ascii_of_string (substring i k s)) -> In a (list_ascii_of_string s).
Proof.
  induction s as [|b s IH]; intros i k H.
  - destruct i, k; simpl in H; exact H.
  - destruct i as [|i], k as [|k]; simpl in *.
    + destruct H.
    + destruct H as [H|H]; [left; exact H|right; apply (IH 0%nat k); exact H].
    + right. apply (IH i 0%nat). exact H.
    + right. apply (IH i (S k)). exact H.
Qed.

Lemma prefix_chars (a : ascii) (sub : string) :
  forall s, String.prefix sub s = true ->
  In a (list_ascii_of_string sub) -> In a (list_ascii_of_string s).
Proof.
  induction sub as [|b sub IH]; intros s Hp H; [destruct H|].
  destruct s as [|c s]; simpl in Hp; [discriminate|].
  destruct (ascii_dec b c) as [<-|]; [|discriminate].
  simpl in *. destruct H as [H|H]; [left; exact H|right; apply IH; assumption].
Qed.

Lemma contains_chars (a : ascii) (sub s : string) :
  contains sub s = true ->
  In a (list_ascii_of_string sub) -> In a (list_ascii_of_string s).
Proof.
  induction s as [|b s IH]; intros Hc H; simpl in Hc.
  - apply String.eqb_eq in Hc. subst sub. destruct H.
  - apply orb_true_iff in Hc. destruct Hc as [Hc|Hc].
    + exact (prefix_chars a sub (String b s) Hc H).
    + right. apply IH; assumption.
Qed.

Lemma endswith_char_In (s : string) (a : ascii) :
  endswith s (String a EmptyString) = true -> In a (list_ascii_of_string s).
Proof.
  unfold endswith. intros H. apply andb_true_iff in H. destruct H as [_ H].
  apply String.eqb_eq in H.
  eapply substring_chars. rewrite H. left. reflexivity.
Qed.

Lemma ends_in_terminal_has_terminal (s : string) :
  ends_in_terminal s = true -> has_terminal s = true.
Proof.
  unfold ends_in_terminal, has_terminal. intros H. apply existsb_exists.
  repeat rewrite orb_true_iff in H.
  destruct H as [[H|H]|H]; apply endswith_char_In in H;
    eexists; (split; [exact H|reflexivity]).
Qed.

Lemma contains_has_terminal (sub s : string) :
  contains sub s = true -> has_terminal sub = true -> has_terminal s = true.
Proof.
  unfold has_terminal. intros Hc H. apply existsb_exists in H.
  destruct H as [a [Ha Ht]]. apply existsb_exists. exists a.
  split; [apply (contains_chars a sub s Hc Ha)|exact Ht].
Qed.

(** A text without a terminal character has no complete sentence, whatever
    pysbd returns: every kept segment ends in one and occurs in the text. *)
Lemma pysbd_extract_no_terminal (segment : string -> list string) (t : string) :
  has_terminal (replace t newline " ") = false -> pysbd_extract segment t = [].
Proof.
  intros Ht. unfold pysbd_extract. destruct (String.eqb _ _); [reflexivity|].
  induction (map strip (segment (replace t newline " "))) as [|s l IH]; [reflexivity|].
  cbn [List.filter]. rewrite IH.
  destruct (ends_in_terminal s) eqn:E; [|reflexivity]. simpl.
  destruct (negb _); [|reflexivity]. simpl.
  destruct (contains s (replace t newline " ")) eqn:C; [|reflexivity].
  exfalso. pose proof (contains_has_terminal _ _ C (ends_in_terminal_has_terminal s E)).
  congruence.
Qed.

(** C7. Splitting (with pysbd, the default, or with the basic splitter)
    while ignoring page headers and footers turns the chunks ["This is
    the beginning"], footer ["Page 1"], header ["Page 2"], ["that
    continues."] into exactly: the TEXT chunk ["This is the beginning that
    continues."], then ["Page 1"], then ["Page 2"]. For pysbd the only
    assumption is that it returns the complete sentence as one segment. *)
Theorem SplitTextIntoSentences_page_break
  (segment : string -> list string) (splitter_type : string) :
  map strip (segment "This is the beginning that continues.")
    = ["This is the beginning that continues."] ->
  splitter_type = "pysbd" \/ splitter_type = "basic" ->
  exists self,
    SplitTextIntoSentences_init splitter_type [PAGE_HEADER; PAGE_FOOTER] = Ok self /\
    SplitTextIntoSentences_call segment self page_break_chunks =
      Ok [plain_chunk 0 "This is the beginning that continues." TEXT;
          plain_chunk 1 "Page 1" PAGE_FOOTER;
          plain_chunk 2 "Page 2" PAGE_HEADER].
Proof.
  intros Hseg [-> | ->]; eexists; (split; [reflexivity|]).
  - unfold SplitTextIntoSentences_call, split_call. simpl splitter.
    assert (H1 : pysbd_extract segment "This is the beginning" = [])
      by (apply pysbd_extract_no_terminal; vm_compute; reflexivity).
    assert (H2 : pysbd_extract segment "This is the beginning that continues."
                 = ["This is the beginning that continues."]).
    { unfold pysbd_extract.
      replace (replace "This is the beginning that continues." newline " ")
        with "This is the beginning that continues." by (vm_compute; reflexivity).
      rewrite Hseg. vm_compute. reflexivity. }
    remember (pysbd_extract segment) as e eqn:He.
    clear He Hseg.
    vm_compute. rewrite H1. vm_compute. rewrite H2. vm_compute. reflexivity.
  - vm_compute. reflexivity.
Qed.

Lemma SplitTextIntoSentences_page_break_witness :
  exists self,
    SplitTextIntoSentences_init "pysbd" [PAGE_HEADER; PAGE_FOOTER] = Ok self /\
    SplitTextIntoSentences_call (fun t => [t]) self page_break_chunks =
      Ok [plain_chunk 0 "This is the beginning that continues." TEXT;
          plain_chunk 1 "Page 1" PAGE_FOOTER;
          plain_chunk 2 "Page 2" PAGE_HEADER].
Proof.
  apply (SplitTextIntoSentences_page_break (fun t => [t]) "pysbd").
  - vm_compute. reflexivity.
  - left. reflexivity.
Defined.

(* ################################################################## *)
(** * Further properties of the code *)

(* ================================================================== *)
(** ** [filter_and_warn_for_unknown_types] and [ChunkTypeFilter] *)

Lemma set_iter_sub (t : string) (l : list string) : In t (set_iter l) -> In t l.
Proof.
  induction l as [|x l IH]; simpl; [tauto|].
  intros [<-|H]; [left; reflexivity|].
  apply filter_In in H. right. apply IH. apply H.
Qed.

Lemma collect_unknown_known (ts acc : list string) :
  (forall t, In t ts -> exists b, BlockType_call t = Ok b) ->
  collect_unknown ts acc = Ok acc.
Proof.
  revert acc. induction ts as [|t ts IH]; intros acc H; [reflexivity|].
  simpl. destruct (H t (or_introl eq_refl)) as [b ->].
  apply IH. intros u Hu. apply H. right. exact Hu.
Qed.

Lemma forallb_false_exists {A} (f : A -> bool) (l : list A) :
  forallb f l = false -> exists x, In x l /\ f x = false.
Proof.
  induction l as [|x l IH]; simpl; [discriminate|].
  destruct (f x) eqn:Ef; simpl.
  - intros H. destruct (IH H) as [y [Hy Hf]]. exists y. split; [right; exact Hy|exact Hf].
  - intros _. exists x. split; [left; reflexivity|exact Ef].
Qed.

Lemma filter_all_true {A} (f : A -> bool) (l : list A) :
  (forall x, In x l -> f x = true) -> List.filter f l = l.
Proof.
  induction l as [|x l IH]; intros H; [reflexivity|]. simpl.
  rewrite (H x (or_introl eq_refl)), IH; [reflexivity|].
  intros y Hy. apply H. right. exact Hy.
Qed.

(** [filter_and_warn_for_unknown_types] never removes anything: it
    returns its argument unchanged (order and duplicates included) when
    every string is a [BlockType] value, and raises [ValueError]
    otherwise. *)
Theorem filter_and_warn_for_unknown_types_spec (types : list string) :
  filter_and_warn_for_unknown_types types =
    if forallb (fun t => match BlockType_call t with Ok _ => true | Raise _ => false end) types
    then Ok types else Raise ValueError.
Proof.
  destruct (forallb _ types) eqn:E.
  - rewrite forallb_forall in E. unfold filter_and_warn_for_unknown_types.
    rewrite collect_unknown_known.
    + simpl. f_equal. apply filter_all_true. intros x _. reflexivity.
    + intros t Ht. apply set_iter_sub in Ht. specialize (E t Ht).
      destruct (BlockType_call t) as [b|]; [exists b; reflexivity|discriminate].
  - destruct (forallb_false_exists _ _ E) as [t [Hin Ht]].
    destruct (BlockType_call t) as [b|e] eqn:Ec; [discriminate|].
    pose proof (BlockType_call_raise t e Ec) as ->.
    unfold filter_and_warn_for_unknown_types.
    rewrite (collect_unknown_raises (set_iter types) [] t (set_iter_In t types Hin) Ec).
    reflexivity.
Qed.

(** Filtering with [ChunkTypeFilter] twice is filtering once by both
    lists: [ChunkTypeFilter] filters compose by concatenating their
    [types_to_remove]. *)
Theorem ChunkTypeFilter_call_compose (A B : list string) (chunks : list Chunk) :
  ChunkTypeFilter_call (mkChunkTypeFilter B) (ChunkTypeFilter_call (mkChunkTypeFilter A) chunks)
  = ChunkTypeFilter_call (mkChunkTypeFilter (A ++ B)) chunks.
Proof.
  unfold ChunkTypeFilter_call. simpl.
  induction chunks as [|c cs IH]; [reflexivity|]. simpl.
  rewrite existsb_app.
  destruct (existsb (String.eqb (BlockType_value (chunk_type c))) A); simpl; [exact IH|].
  destruct (existsb (String.eqb (BlockType_value (chunk_type c))) B); simpl;
    [exact IH|rewrite IH; reflexivity].
Qed.

(* ================================================================== *)
(** ** [RemoveShortTableCells] and [RemoveChunksUnderLength] *)

(** [RemoveShortTableCells] keeps every chunk that is not a table cell,
    in order, and drops only table cells: its output is a sublist of its
    input, and every table cell it keeps has at least [min_chars]
    characters and, when [remove_all_numeric] is set, a stripped text
    that is not all-numeric. *)
Theorem RemoveShortTableCells_spec (self : RemoveShortTableCells) (chunks : list Chunk) :
  let out := RemoveShortTableCells_call self chunks in
  List.filter (fun c => negb (bool_decide (chunk_type c = TABLE_CELL))) out
    = List.filter (fun c => negb (bool_decide (chunk_type c = TABLE_CELL))) chunks /\
  sublist out chunks /\
  Forall (fun c => chunk_type c = TABLE_CELL ->
                   min_chars self <= Z.of_nat (String.length (text c)) /\
                   (remove_all_numeric self = true -> all_numeric_match (strip (text c)) = false))
    out.
Proof.
  unfold RemoveShortTableCells_call. simpl.
  induction chunks as [|c cs [IH1 [IH2 IH3]]]; simpl.
  - split; [reflexivity|]. split; [constructor|constructor].
  - destruct (bool_decide (chunk_type c = TABLE_CELL)) eqn:Ht; simpl.
    + apply bool_decide_eq_true in Ht.
      destruct (Z.of_nat (String.length (text c)) <? min_chars self) eqn:Hl.
      { split; [exact IH1|]. split; [apply sublist_cons; exact IH2|exact IH3]. }
      destruct (remove_all_numeric self && all_numeric_match (strip (text c))) eqn:Hn.
      { split; [exact IH1|]. split; [apply sublist_cons; exact IH2|exact IH3]. }
      simpl. rewrite (bool_decide_eq_true_2 _ Ht). simpl.
      split; [exact IH1|]. split; [apply sublist_skip; exact IH2|].
      constructor; [|exact IH3]. intros _. split; [apply Z.ltb_ge in Hl; exact Hl|].
      intros Hr. rewrite Hr in Hn. exact Hn.
    + simpl. rewrite Ht. simpl. rewrite IH1.
      split; [reflexivity|]. split; [apply sublist_skip; exact IH2|].
      constructor; [|exact IH3]. intros E. apply bool_decide_eq_false in Ht. contradiction.
Qed.

(** Removing chunks under [m] characters after removing those under [n]
    is removing those under [max m n]; every kept chunk has at least
    [min_num_characters] characters. *)
Theorem RemoveChunksUnderLength_compose (m n : Z) (chunks : list Chunk) :
  RemoveChunksUnderLength_call (mkRemoveChunksUnderLength m)
    (RemoveChunksUnderLength_call (mkRemoveChunksUnderLength n) chunks)
  = RemoveChunksUnderLength_call (mkRemoveChunksUnderLength (Z.max m n)) chunks /\
  Forall (fun c => n <= Z.of_nat (String.length (text c)))
    (RemoveChunksUnderLength_call (mkRemoveChunksUnderLength n) chunks).
Proof.
  unfold RemoveChunksUnderLength_call. simpl. split.
  - induction chunks as [|c cs IH]; [reflexivity|]. simpl.
    destruct (Z.leb_spec n (Z.of_nat (String.length (text c)))) as [Hn|Hn]; simpl.
    + destruct (Z.leb_spec m (Z.of_nat (String.length (text c)))) as [Hm|Hm];
        destruct (Z.leb_spec (Z.max m n) (Z.of_nat (String.length (text c)))) as [Hx|Hx];
        try lia; rewrite IH; reflexivity.
    + destruct (Z.leb_spec (Z.max m n) (Z.of_nat (String.length (text c)))) as [Hx|Hx];
        [lia|exact IH].
  - apply List.Forall_forall. intros c Hc. apply filter_In in Hc.
    apply Z.leb_le. apply Hc.
Qed.

(* ================================================================== *)
(** ** [RemoveRepeatedAdjacentChunks] *)

Lemma rr_loop_sublist (self : RemoveRepeatedAdjacentChunks) (cur : type_map) (chunks : list Chunk) :
  sublist (rr_loop self cur chunks) chunks.
Proof.
  revert cur. induction chunks as [|c cs IH]; intros cur; simpl; [constructor|].
  destruct (negb _); [apply sublist_skip, IH|].
  destruct (cur (chunk_type c)) as [m|]; [destruct (negb _)|];
    solve [apply sublist_skip, IH | apply sublist_cons, IH].
Qed.

Lemma rr_loop_others (self : RemoveRepeatedAdjacentChunks) (cur : type_map) (chunks : list Chunk) :
  List.filter (fun c => negb (type_in (chunk_type c) (rr_chunk_types self))) (rr_loop self cur chunks)
  = List.filter (fun c => negb (type_in (chunk_type c) (rr_chunk_types self))) chunks.
Proof.
  revert cur. induction chunks as [|c cs IH]; intros cur; simpl; [reflexivity|].
  destruct (type_in (chunk_type c) (rr_chunk_types self)) eqn:Ht; simpl.
  - destruct (cur (chunk_type c)) as [m|]; [destruct (negb _)|]; simpl; rewrite ?Ht; simpl;
      apply IH.
  - rewrite Ht. simpl. rewrite IH. reflexivity.
Qed.

Lemma rr_loop_adj (self : RemoveRepeatedAdjacentChunks) (t : BlockType) (chunks : list Chunk) :
  type_in t (rr_chunk_types self) = true ->
  forall cur : type_map,
  adj_distinct (match cur t with Some m => [m] | None => [] end
                ++ map (rr_norm self)
                     (List.filter (fun c => bool_decide (chunk_type c = t)) (rr_loop self cur chunks))).
Proof.
  intros Htin. induction chunks as [|c cs IH]; intros cur; simpl.
  - destruct (cur t); simpl; exact I.
  - destruct (type_in (chunk_type c) (rr_chunk_types self)) eqn:Ht; simpl.
    + change (if rr_ignore_case self then lower (text c) else text c) with (rr_norm self c).
      destruct (decide (chunk_type c = t)) as [Ect|Nct].
      * subst t. 
        destruct (cur (chunk_type c)) as [m|] eqn:Ec.
        -- destruct (String.eqb_spec m (rr_norm self c)) as [Em|Nm]; simpl.
           ++ specialize (IH cur). rewrite Ec in IH. exact IH.
           ++ rewrite bool_decide_eq_true_2 by reflexivity. simpl.
              specialize (IH (tm_set cur (chunk_type c) (Some (rr_norm self c)))).
              unfold tm_set in IH. rewrite decide_True in IH by reflexivity.
              simpl in IH.
              destruct (map (rr_norm self) _) as [|y ys] eqn:Ey; simpl in *.
              ** split; [exact Nm|exact I].
              ** split; [exact Nm|exact IH].
        -- cbn [List.filter]. rewrite bool_decide_eq_true_2 by reflexivity. simpl.
           specialize (IH (tm_set cur (chunk_type c) (Some (rr_norm self c)))).
           unfold tm_set in IH. rewrite decide_True in IH by reflexivity. exact IH.
      * assert (Hset : forall v, tm_set cur (chunk_type c) v t = cur t)
          by (intros v; unfold tm_set; rewrite decide_False by congruence; reflexivity).
        destruct (cur (chunk_type c)) as [m|]; [destruct (negb _)|]; cbn [List.filter];
          rewrite ?bool_decide_eq_false_2 by exact Nct;
          try (specialize (IH (tm_set cur (chunk_type c) (Some (rr_norm self c))));
               rewrite Hset in IH; exact IH);
          exact (IH cur).
    + rewrite bool_decide_eq_false_2; [exact (IH cur)|].
      intros E. rewrite E in Ht. congruence.
Qed.

(** [RemoveRepeatedAdjacentChunks] only drops chunks: its output is a
    sublist of its input, chunks of unconfigured types all pass through
    in order, and for each configured type the texts of its successive
    output chunks (lower-cased when [ignore_case]) always differ. *)
Theorem RemoveRepeatedAdjacentChunks_no_adjacent_repeat
  (self : RemoveRepeatedAdjacentChunks) (chunks : list Chunk) :
  let out := RemoveRepeatedAdjacentChunks_call self chunks in
  sublist out chunks /\
  List.filter (fun c => negb (type_in (chunk_type c) (rr_chunk_types self))) out
    = List.filter (fun c => negb (type_in (chunk_type c) (rr_chunk_types self))) chunks /\
  forall t, type_in t (rr_chunk_types self) = true ->
    adj_distinct (map (rr_norm self) (List.filter (fun c => bool_decide (chunk_type c = t)) out)).
Proof.
  simpl. split; [apply rr_loop_sublist|]. split; [apply rr_loop_others|].
  intros t Ht. exact (rr_loop_adj self t chunks Ht (fun _ => None)).
Qed.

(* ================================================================== *)
(** ** [Chunk.merge] in two steps *)

Lemma string_app_assoc (x y z : string) : ((x ++ y) ++ z)%string = (x ++ (y ++ z))%string.
Proof.
  induction x as [|a x IH]; [reflexivity|].
  change (String a ((x ++ y) ++ z) = String a (x ++ (y ++ z)))%string.
  rewrite IH. reflexivity.
Qed.

Lemma merge_valid_eq (a o : Chunk) (os : list Chunk) (sep : string) :
  Forall chunk_valid (a :: o :: os) ->
  merge a (o :: os) sep =
    match check_incompatible_properties a (o :: os) with
    | [] => Ok (mkChunk (fold_left Z.min (map id (o :: os)) (id a))
                  (join sep (map text (a :: o :: os))) (chunk_type a) None
                  (combine_field bounding_boxes a (a :: o :: os))
                  (combine_field pages a (a :: o :: os)) None None)
    | _ :: _ => Raise ValueError
    end.
Proof.
  intros Hv. destruct (check_incompatible_properties a (o :: os)) eqn:Hi.
  - apply merge_cons_ok_iff; [exact Hi|apply merge_min_nonneg; exact Hv|].
    unfold combine_field. destruct (bounding_boxes a); [|reflexivity].
    cbn [default from_option Datatypes.id]. rewrite forallb_concat, forallb_forall.
    intros bs Hbs. apply in_map_iff in Hbs as [x [<- Hx]].
    rewrite List.Forall_forall in Hv. destruct (Hv x Hx) as [_ Hb]. exact Hb.
  - unfold merge. rewrite Hi. reflexivity.
Qed.

Lemma check_cons_nil (a b : Chunk) (L : list Chunk) :
  check_incompatible_properties a (b :: L) = [] <->
  check_incompatible_properties a [b] = [] /\ check_incompatible_properties a L = [].
Proof.
  unfold check_incompatible_properties. simpl.
  destruct (negb (Bool.eqb (is_none (bounding_boxes b)) (is_none (bounding_boxes a))));
  destruct (negb (Bool.eqb (is_none (pages b)) (is_none (pages a))));
  destruct (existsb _ L); destruct (existsb _ L); simpl; intuition discriminate.
Qed.

Lemma check_same_nullability (a m : Chunk) (L : list Chunk) :
  is_none (bounding_boxes m) = is_none (bounding_boxes a) ->
  is_none (pages m) = is_none (pages a) ->
  check_incompatible_properties m L = check_incompatible_properties a L.
Proof. intros Hb Hp. unfold check_incompatible_properties. rewrite Hb, Hp. reflexivity. Qed.

(** Merging a receiver with [b :: cs] at once gives the same result,
    success or error, as merging it with [b] and then merging that
    result with [cs] (for valid chunks, as constructed chunks are): the
    step by step merging of [CombineSuccessiveSameTypeChunks] builds the
    same chunk as one merge of the whole run. *)
Theorem merge_cons_split (a b : Chunk) (cs : list Chunk) (sep : string) :
  Forall chunk_valid (a :: b :: cs) ->
  merge a (b :: cs) sep = (let! m := merge a [b] sep in merge m cs sep).
Proof.
  intros Hv. destruct cs as [|c cs].
  - destruct (merge a [b] sep); reflexivity.
  - assert (Hab : Forall chunk_valid [a; b])
      by (inversion Hv as [|? ? Ha Hbs]; inversion Hbs as [|? ? Hb _];
          constructor; [exact Ha|constructor; [exact Hb|constructor]]).
    rewrite (merge_valid_eq a b [] sep Hab), (merge_valid_eq a b (c :: cs) sep Hv).
    destruct (check_incompatible_properties a [b]) eqn:Hab_i.
    + set (m := mkChunk (fold_left Z.min (map id [b]) (id a)) (join sep (map text [a; b]))
                  (chunk_type a) None (combine_field bounding_boxes a [a; b])
                  (combine_field pages a [a; b]) None None).
      cbn [bind].
      assert (Hm : chunk_valid m).
      { split; [apply (merge_min_nonneg a [b]); exact Hab|].
        unfold m. simpl. unfold combine_field. destruct (bounding_boxes a) eqn:Ea; [|reflexivity].
        cbn [default from_option Datatypes.id]. rewrite forallb_concat.
        inversion Hab as [|? ? [_ Ha] Hbs]; inversion Hbs as [|? ? [_ Hb] _].
        simpl. rewrite Ea in *. cbn [default from_option Datatypes.id] in *.
        rewrite Ha, Hb. reflexivity. }
      assert (Hv' : Forall chunk_valid (m :: c :: cs))
        by (constructor; [exact Hm|inversion Hv as [|? ? _ Hbs]; inversion Hbs; assumption]).
      rewrite (merge_valid_eq m c cs sep Hv').
      assert (Hsame : check_incompatible_properties m (c :: cs)
                      = check_incompatible_properties a (c :: cs)).
      { apply check_same_nullability; unfold m; simpl; unfold combine_field;
          [destruct (bounding_boxes a)|destruct (pages a)]; reflexivity. }
      rewrite Hsame.
      destruct (check_incompatible_properties a (c :: cs)) eqn:Hc.
      * assert (Hall : check_incompatible_properties a (b :: c :: cs) = [])
          by (apply check_cons_nil; split; assumption).
        rewrite Hall. f_equal. unfold m. simpl. f_equal.
        -- destruct (map text cs); simpl; rewrite !string_app_assoc; reflexivity.
        -- unfold combine_field. simpl. destruct (bounding_boxes a); [|reflexivity].
           simpl. rewrite app_nil_r, app_assoc. reflexivity.
        -- unfold combine_field. simpl. destruct (pages a); [|reflexivity].
           simpl. rewrite app_nil_r, app_assoc. reflexivity.
      * destruct (check_incompatible_properties a (b :: c :: cs)) eqn:Hall; [|reflexivity].
        apply check_cons_nil in Hall as [_ Hall]. congruence.
    + simpl. destruct (check_incompatible_properties a (b :: c :: cs)) eqn:Hall; [|reflexivity].
      apply check_cons_nil in Hall as [Hall _]. congruence.
Qed.

(* ================================================================== *)
(** ** What [AddHeadings] writes *)

Lemma add_headings_loop_frame (chunks : list loc) :
  forall (st st' : store) (ch csh : option loc),
  add_headings_loop st ch csh chunks = Ok st' ->
  (forall k, option_map (fun c => set_heading c None) (st' !! k)
             = option_map (fun c => set_heading c None) (st !! k)) /\
  (forall k c, st !! k = Some c -> type_in (chunk_type c) heading_types = true ->
               st' !! k = Some c).
Proof.
  induction chunks as [|l rest IH]; intros st st' ch csh H.
  - injection H as <-. split; [reflexivity|auto].
  - simpl in H. unfold deref in H. destruct (st !! l) as [c|] eqn:Hc; [|discriminate].
    simpl in H.
    destruct (type_in (chunk_type c) heading_types) eqn:Hh.
    + exact (IH _ _ _ _ H).
    + assert (Hw : forall v st1, write_heading st l v = Ok st1 ->
                add_headings_loop st1 ch (if type_in (chunk_type c) subheading_types
                                          then Some l else csh) rest = Ok st' ->
                (forall k, option_map (fun c => set_heading c None) (st' !! k)
                           = option_map (fun c => set_heading c None) (st !! k)) /\
                (forall k c0, st !! k = Some c0 ->
                              type_in (chunk_type c0) heading_types = true ->
                              st' !! k = Some c0)).
      { intros v st1 Hw1 Hrec. unfold write_heading, deref in Hw1. rewrite Hc in Hw1.
        injection Hw1 as <-.
        destruct (IH _ _ _ _ Hrec) as [F1 F2]. split.
        - intros k. rewrite F1. destruct (decide (k = l)) as [->|Hne].
          + rewrite lookup_insert_eq, Hc. reflexivity.
          + rewrite lookup_insert_ne by congruence. reflexivity.
        - intros k c0 Hk Hh0. apply F2; [|exact Hh0].
          destruct (decide (k = l)) as [->|Hne].
          + rewrite Hc in Hk. injection Hk as <-. congruence.
          + rewrite lookup_insert_ne by congruence. exact Hk. }
      destruct (type_in (chunk_type c) subheading_types) eqn:Hs.
      * destruct (write_heading st l ch) as [st1|] eqn:Hw1; [|discriminate].
        simpl in H. apply (Hw ch st1 Hw1). exact H.
      * destruct (write_heading st l (py_or csh ch)) as [st1|] eqn:Hw1; [|discriminate].
        simpl in H. apply (Hw _ st1 Hw1). exact H.
Qed.

(** [AddHeadings] returns its input list, changes no field other than
    [heading] of any object (and creates or removes none), and leaves
    objects of the heading types ([TITLE], [title]) untouched. *)
Theorem AddHeadings_writes_only_headings (st : store) (chunks out : list loc) (st' : store) :
  AddHeadings_call st chunks = Ok (out, st') ->
  out = chunks /\
  (forall k, option_map (fun c => set_heading c None) (st' !! k)
             = option_map (fun c => set_heading c None) (st !! k)) /\
  (forall k c, st !! k = Some c -> type_in (chunk_type c) heading_types = true ->
               st' !! k = Some c).
Proof.
  unfold AddHeadings_call. destruct (add_headings_loop st None None chunks) as [st1|] eqn:E;
    [|discriminate].
  simpl. intros H. injection H as <- <-. split; [reflexivity|].
  exact (add_headings_loop_frame chunks st st1 None None E).
Qed.

Lemma AddHeadings_writes_only_headings_witness :
  AddHeadings_call title_then_text [1%positive; 2%positive]
    = Ok ([1%positive; 2%positive],
          <[2%positive := set_heading (plain_chunk 1 "a" TEXT) (Some 1%positive)]>
            title_then_text) /\
  [1%positive; 2%positive] = [1%positive; 2%positive] /\
  (forall k, option_map (fun c => set_heading c None)
               ((<[2%positive := set_heading (plain_chunk 1 "a" TEXT) (Some 1%positive)]>
                   title_then_text) !! k)
             = option_map (fun c => set_heading c None) (title_then_text !! k)) /\
  (forall k c, title_then_text !! k = Some c -> type_in (chunk_type c) heading_types = true ->
     (<[2%positive := set_heading (plain_chunk 1 "a" TEXT) (Some 1%positive)]>
        title_then_text) !! k = Some c).
Proof.
  assert (E : AddHeadings_call title_then_text [1%positive; 2%positive]
    = Ok ([1%positive; 2%positive],
          <[2%positive := set_heading (plain_chunk 1 "a" TEXT) (Some 1%positive)]>
            title_then_text)) by reflexivity.
  split; [exact E|]. exact (AddHeadings_writes_only_headings _ _ _ _ E).
Defined.

(* ================================================================== *)
(** ** [RemoveRegexPattern] never writes an existing object *)

Lemma fresh_not_in (st : store) : st !! fresh (dom st) = None.
Proof. apply not_elem_of_dom. apply is_fresh. Qed.

Lemma rx_loop_frame (R : ReModule) (self : RemoveRegexPattern) (chunks : list loc) :
  forall st out st', rx_loop R self st chunks = Ok (out, st') ->
  (forall k c, st !! k = Some c -> st' !! k = Some c) /\
  Forall (fun l => In l chunks \/ st !! l = None) out.
Proof.
  induction chunks as [|l rest IH]; intros st out st' H.
  - injection H as <- <-. split; [auto|constructor].
  - simpl in H. unfold deref in H. destruct (st !! l) as [c|] eqn:Hc; [|discriminate].
    simpl in H.
    assert (Hkeep : forall out', rx_loop R self st rest = Ok (out', st') ->
              Forall (fun l0 => In l0 (l :: rest) \/ st !! l0 = None) (l :: out')).
    { intros out' E. destruct (IH _ _ _ E) as [_ F]. constructor; [left; left; reflexivity|].
      eapply List.Forall_impl; [|exact F]. simpl. intros y [Hy|Hy]; [left; right; exact Hy|right; exact Hy]. }
    destruct (rx_passes_through self c).
    { destruct (rx_loop R self st rest) as [[out' st2]|] eqn:E; [|discriminate].
      simpl in H. injection H as <- <-. split; [apply (IH _ _ _ E)|apply Hkeep; reflexivity]. }
    destruct (re_match R _ _ _).
    { destruct (IH _ _ _ H) as [F1 F2]. split; [exact F1|].
      eapply List.Forall_impl; [|exact F2]. simpl. intros y [Hy|Hy]; [left; right; exact Hy|right; exact Hy]. }
    destruct (skip_partial_replacements self).
    { destruct (rx_loop R self st rest) as [[out' st2]|] eqn:E; [|discriminate].
      simpl in H. injection H as <- <-. split; [apply (IH _ _ _ E)|apply Hkeep; reflexivity]. }
    unfold alloc in H. simpl in H.
    set (l' := fresh (dom st)) in H.
    set (st2 := <[l' := _]> (<[l' := c]> st)) in H.
    assert (Hsub : forall k c0, st !! k = Some c0 -> st2 !! k = Some c0).
    { intros k c0 Hk. unfold st2. rewrite !lookup_insert_ne; [exact Hk| |];
        intros E; subst k; unfold l' in Hk; rewrite fresh_not_in in Hk; discriminate. }
    assert (Hnone : forall y, st2 !! y = None -> st !! y = None).
    { intros y Hy. destruct (st !! y) eqn:Ey; [|reflexivity]. apply Hsub in Ey. congruence. }
    destruct (String.eqb _ _).
    + destruct (IH _ _ _ H) as [F1 F2]. split; [intros k c0 Hk; apply F1, Hsub, Hk|].
      eapply List.Forall_impl; [|exact F2]. simpl. intros y [Hy|Hy];
        [left; right; exact Hy|right; apply Hnone, Hy].
    + destruct (rx_loop R self st2 rest) as [[out' st3]|] eqn:E; [|discriminate].
      simpl in H. injection H as <- <-. destruct (IH _ _ _ E) as [F1 F2].
      split; [intros k c0 Hk; apply F1, Hsub, Hk|].
      constructor; [right; apply fresh_not_in|].
      eapply List.Forall_impl; [|exact F2]. simpl. intros y [Hy|Hy];
        [left; right; exact Hy|right; apply Hnone, Hy].
Qed.

(** [RemoveRegexPattern], for any regex engine and configuration, never
    changes an existing object: every object keeps its fields, and each
    output element is either an input element or a newly created object. *)
Theorem RemoveRegexPattern_preserves_objects (R : ReModule) (self : RemoveRegexPattern)
  (st : store) (chunks out : list loc) (st' : store) :
  RemoveRegexPattern_call R self st chunks = Ok (out, st') ->
  (forall k c, st !! k = Some c -> st' !! k = Some c) /\
  Forall (fun l => In l chunks \/ st !! l = None) out.
Proof. apply rx_loop_frame. Qed.

Lemma RemoveRegexPattern_preserves_objects_witness :
  exists out st',
    RemoveRegexPattern_call lit_re (RemoveRegexPattern_init "x" "y" false [] false)
      title_then_text [1%positive; 2%positive] = Ok (out, st') /\
    (forall k c, title_then_text !! k = Some c -> st' !! k = Some c) /\
    Forall (fun l => In l [1%positive; 2%positive] \/ title_then_text !! l = None) out.
Proof.
  eexists; eexists.
  assert (E : RemoveRegexPattern_call lit_re (RemoveRegexPattern_init "x" "y" false [] false)
      title_then_text [1%positive; 2%positive] = Ok (_, _)) by reflexivity.
  split; [exact E|]. exact (RemoveRegexPattern_preserves_objects _ _ _ _ _ _ E).
Defined.

Lemma rx_loop_skip (R : ReModule) (self : RemoveRegexPattern) (chunks : list loc) :
  skip_partial_replacements self = true ->
  forall st out st', rx_loop R self st chunks = Ok (out, st') ->
  st' = st /\ sublist out chunks /\
  List.filter (rx_passes self st) out = List.filter (rx_passes self st) chunks.
Proof.
  intros Hskip. induction chunks as [|l rest IH]; intros st out st' H.
  - injection H as <- <-. split; [reflexivity|]. split; [constructor|reflexivity].
  - simpl in H. unfold deref in H. destruct (st !! l) as [c|] eqn:Hc; [|discriminate].
    simpl in H. cbn [List.filter]. unfold rx_passes at 2. rewrite Hc.
    destruct (rx_passes_through self c) eqn:Hp.
    { destruct (rx_loop R self st rest) as [[out' st2]|] eqn:E; [|discriminate].
      simpl in H. injection H as <- <-. destruct (IH _ _ _ E) as [-> [S F]].
      split; [reflexivity|]. split; [apply sublist_skip, S|].
      cbn [List.filter]. unfold rx_passes at 1. rewrite Hc, Hp, F. reflexivity. }
    destruct (re_match R _ _ _).
    { destruct (IH _ _ _ H) as [-> [S F]]. split; [reflexivity|].
      split; [apply sublist_cons, S|exact F]. }
    rewrite Hskip in H.
    destruct (rx_loop R self st rest) as [[out' st2]|] eqn:E; [|discriminate].
    simpl in H. injection H as <- <-. destruct (IH _ _ _ E) as [-> [S F]].
    split; [reflexivity|]. split; [apply sublist_skip, S|].
    cbn [List.filter]. unfold rx_passes at 1. rewrite Hc, Hp, F. reflexivity.
Qed.

(** With [skip_partial_replacements], [RemoveRegexPattern] only drops
    chunks: the heap is unchanged, the output is a sublist of the input,
    and every chunk of a type outside [chunk_types] (when these are
    given) is kept. *)
Theorem RemoveRegexPattern_skip_partial_only_drops (R : ReModule) (self : RemoveRegexPattern)
  (st : store) (chunks out : list loc) (st' : store) :
  skip_partial_replacements self = true ->
  RemoveRegexPattern_call R self st chunks = Ok (out, st') ->
  st' = st /\ sublist out chunks /\
  List.filter (rx_passes self st) out = List.filter (rx_passes self st) chunks.
Proof. intros Hskip. apply rx_loop_skip. exact Hskip. Qed.

Lemma RemoveRegexPattern_skip_partial_only_drops_witness :
  exists out st',
    skip_partial_replacements (RemoveRegexPattern_init "a" "y" true [TEXT] false) = true /\
    RemoveRegexPattern_call lit_re (RemoveRegexPattern_init "a" "y" true [TEXT] false)
      title_then_text [1%positive; 2%positive] = Ok (out, st') /\
    st' = title_then_text /\ sublist out [1%positive; 2%positive] /\
    List.filter (rx_passes (RemoveRegexPattern_init "a" "y" true [TEXT] false) title_then_text) out
    = List.filter (rx_passes (RemoveRegexPattern_init "a" "y" true [TEXT] false) title_then_text)
        [1%positive; 2%positive].
Proof.
  eexists; eexists.
  assert (E : RemoveRegexPattern_call lit_re (RemoveRegexPattern_init "a" "y" true [TEXT] false)
      title_then_text [1%positive; 2%positive] = Ok (_, _)) by reflexivity.
  split; [reflexivity|]. split; [exact E|].
  exact (RemoveRegexPattern_skip_partial_only_drops lit_re (RemoveRegexPattern_init "a" "y" true [TEXT] false) _ _ _ _ eq_refl E).
Defined.

(** [RemoveMisclassifiedPageNumbers], whatever its pattern matches, only
    drops page headers and footers: the heap is unchanged, the output is
    a sublist of the input, and every other chunk is kept in order. *)
Theorem RemoveMisclassifiedPageNumbers_only_drops_headers_footers (R : ReModule)
  (st : store) (chunks out : list loc) (st' : store) :
  RemoveRegexPattern_call R RemoveMisclassifiedPageNumbers_init st chunks = Ok (out, st') ->
  st' = st /\ sublist out chunks /\
  List.filter (fun l => match st !! l with
                        | Some c => negb (type_in (chunk_type c) [PAGE_HEADER; PAGE_FOOTER])
                        | None => false end) out
  = List.filter (fun l => match st !! l with
                          | Some c => negb (type_in (chunk_type c) [PAGE_HEADER; PAGE_FOOTER])
                          | None => false end) chunks.
Proof. intros H. exact (rx_loop_skip R RemoveMisclassifiedPageNumbers_init chunks eq_refl st out st' H). Qed.

Lemma RemoveMisclassifiedPageNumbers_only_drops_headers_footers_witness :
  exists out st',
    RemoveRegexPattern_call lit_re RemoveMisclassifiedPageNumbers_init
      title_then_text [1%positive; 2%positive] = Ok (out, st') /\
    st' = title_then_text /\ sublist out [1%positive; 2%positive] /\
    List.filter (fun l => match title_then_text !! l with
                          | Some c => negb (type_in (chunk_type c) [PAGE_HEADER; PAGE_FOOTER])
                          | None => false end) out
    = List.filter (fun l => match title_then_text !! l with
                            | Some c => negb (type_in (chunk_type c) [PAGE_HEADER; PAGE_FOOTER])
                            | None => false end) [1%positive; 2%positive].
Proof.
  eexists; eexists.
  assert (E : RemoveRegexPattern_call lit_re RemoveMisclassifiedPageNumbers_init
      title_then_text [1%positive; 2%positive] = Ok (_, _)) by reflexivity.
  split; [exact E|].
  exact (RemoveMisclassifiedPageNumbers_only_drops_headers_footers _ _ _ _ _ E).
Defined.

(* ================================================================== *)
(** ** [CombineSuccessiveSameTypeChunks] without a retype target *)

Lemma adj_rel_cons_any {A} (R : A -> A -> Prop) (x : A) (l : list A) :
  (forall y, R x y) -> adj_rel R l -> adj_rel R (x :: l).
Proof. intros Hx Hl. destruct l as [|y l]; [exact I|]. split; [apply Hx|exact Hl]. Qed.

Lemma not_combinable_pair_left self st x y cx :
  st !! x = Some cx ->
  type_in (chunk_type cx) (chunk_types_to_combine self) = false ->
  not_combinable_pair self st x y.
Proof. intros Hx Ht cx' cy Hx' _ _. rewrite Hx in Hx'. injection Hx' as <-. exact Ht. Qed.

Lemma merge_obj_one st x l sep m st1 :
  merge_obj st x [l] sep = Ok (m, st1) ->
  (forall k c, st !! k = Some c -> st1 !! k = Some c) /\
  exists cx cm, st !! x = Some cx /\ st1 !! m = Some cm /\ chunk_type cm = chunk_type cx.
Proof.
  unfold merge_obj. cbn [bind mapM]. unfold deref.
  destruct (st !! x) as [cx|] eqn:Hx; [|discriminate]. cbn [bind].
  destruct (st !! l) as [cl|]; [|discriminate]. cbn [bind].
  destruct (merge cx [cl] sep) as [cm|] eqn:Hm; [|discriminate].
  cbn [bind]. unfold alloc. intros H. injection H as <- <-.
  apply merge_cons_ok in Hm. destruct Hm as [_ ->].
  split.
  - intros k c Hk. rewrite lookup_insert_ne; [exact Hk|].
    intros E; subst k. rewrite fresh_not_in in Hk. discriminate.
  - exists cx. eexists. split; [reflexivity|]. split; [apply lookup_insert_eq|reflexivity].
Qed.

Lemma combine_loop_untyped_inv (self : CombineSuccessiveSameTypeChunks)
  (Hn : merge_into_chunk_type self = None) (rest : list loc) :
  forall st cur out st',
  match cur with Some x => is_Some (st !! x) | None => True end ->
  combine_loop self st cur rest = Ok (out, st') ->
  (forall k c, st !! k = Some c -> st' !! k = Some c) /\
  Forall (fun l => is_Some (st' !! l)) out /\
  adj_rel (not_combinable_pair self st') out /\
  (List.length out <= List.length rest + match cur with Some _ => 1 | None => 0 end)%nat /\
  match cur with
  | Some x => forall cx, st !! x = Some cx ->
      exists m rest' cm, out = m :: rest' /\ st' !! m = Some cm /\ chunk_type cm = chunk_type cx
  | None => True
  end.
Proof.
  unfold set_chunk_type in *.
  induction rest as [|l rest IH]; intros st cur out st' Hcur H.
  - destruct cur as [x|]; simpl in H; unfold set_chunk_type in H; rewrite ?Hn in H;
      simpl in H; injection H as <- <-.
    + destruct Hcur as [cx Hx]. split; [auto|]. split; [constructor; [exists cx; exact Hx|constructor]|].
      split; [exact I|]. split; [simpl; lia|].
      intros cx' Hx'. exists x, [], cx'. auto.
    + split; [auto|]. split; [constructor|]. split; [exact I|]. split; [simpl; lia|exact I].
  - cbn [combine_loop] in H. unfold deref in H at 1. destruct (st !! l) as [c|] eqn:Hc; [|discriminate].
    cbn [bind] in H. unfold set_chunk_type in H. rewrite ?Hn in H.
    destruct (type_in (chunk_type c) (chunk_types_to_combine self)) eqn:Ht; cbn [negb] in H.
    + destruct cur as [x|].
      * unfold deref in H. destruct (st !! x) as [cx|] eqn:Hx; [|discriminate]. cbn [bind] in H.
        destruct (decide (chunk_type c = chunk_type cx)) as [Heq|Hne].
        -- destruct (merge_obj st x [l] (cs_text_separator self)) as [[m st1]|] eqn:Hm;
             [|discriminate]. cbn [bind] in H.
           destruct (merge_obj_one _ _ _ _ _ _ Hm) as [Hsub [cx1 [cm [Hx1 [Hm1 Hty]]]]].
           rewrite Hx in Hx1. injection Hx1 as <-.
           destruct (IH st1 (Some m) out st' (ex_intro _ cm Hm1) H) as [A [B [C [D E]]]].
           split; [intros k c0 Hk; apply A, Hsub, Hk|]. split; [exact B|]. split; [exact C|].
           split; [simpl; lia|].
           intros cx' Hx'. rewrite ?Hx in Hx'. injection Hx' as <-.
           destruct (E cm Hm1) as [m' [r' [cm' [Eo [Hm' Hty']]]]].
           exists m', r', cm'. split; [exact Eo|]. split; [exact Hm'|congruence].
        -- cbn [bind] in H.
           destruct (combine_loop self st (Some l) rest) as [[out' st2]|] eqn:E; [|discriminate].
           cbn [bind] in H. injection H as <- <-.
           destruct (IH st (Some l) out' st2 (ex_intro _ c Hc) E) as [A [B [C [D F]]]].
           split; [exact A|]. split; [constructor; [exists cx; apply A, Hx|exact B]|].
           split.
           { destruct (F c Hc) as [m [r [cm [Eo [Hm Hty]]]]]. rewrite Eo in *.
             split; [|exact C].
             intros cx' cm' Hx' Hm' Heq. apply A in Hx. rewrite Hx in Hx'. injection Hx' as <-.
             rewrite Hm in Hm'. injection Hm' as <-. exfalso. apply Hne. congruence. }
           split; [simpl in *; lia|].
           intros cx' Hx'. rewrite ?Hx in Hx'. injection Hx' as <-.
           exists x, out', cx. split; [reflexivity|]. split; [apply A, Hx|reflexivity].
      * destruct (IH st (Some l) out st' (ex_intro _ c Hc) H) as [A [B [C [D _]]]].
        split; [exact A|]. split; [exact B|]. split; [exact C|]. split; [simpl in *; lia|exact I].
    + destruct cur as [x|].
      * cbn [bind] in H.
        destruct (combine_loop self st None rest) as [[out' st2]|] eqn:E; [|discriminate].
        cbn [bind] in H. injection H as <- <-.
        destruct (IH st None out' st2 I E) as [A [B [C [D _]]]].
        destruct Hcur as [cx Hx].
        split; [exact A|].
        split; [constructor; [exists cx; apply A, Hx|constructor; [exists c; apply A, Hc|exact B]]|].
        split.
        { split.
          - intros cx' c' Hx' Hc' Heq. apply A in Hx. apply A in Hc.
            rewrite Hx in Hx'. injection Hx' as <-. rewrite Hc in Hc'. injection Hc' as <-.
            rewrite Heq. exact Ht.
          - apply adj_rel_cons_any; [|exact C]. intros y.
            apply (not_combinable_pair_left _ _ _ _ c); [apply A, Hc|exact Ht]. }
        split; [simpl in *; lia|].
        intros cx' Hx'. exists x, (l :: out'), cx'. split; [reflexivity|].
        split; [apply A, Hx'|reflexivity].
      * destruct (combine_loop self st None rest) as [[out' st2]|] eqn:E; [|discriminate].
        cbn [bind] in H. injection H as <- <-.
        destruct (IH st None out' st2 I E) as [A [B [C [D _]]]].
        split; [exact A|]. split; [constructor; [exists c; apply A, Hc|exact B]|].
        split.
        { apply adj_rel_cons_any; [|exact C]. intros y.
          apply (not_combinable_pair_left _ _ _ _ c); [apply A, Hc|exact Ht]. }
        split; [simpl in *; lia|exact I].
Qed.

(** Without a retype target, [CombineSuccessiveSameTypeChunks] leaves
    every existing object as it was, returns live objects only, never
    returns more chunks than it was given, and leaves no two successive
    chunks of the same combinable type: its output is maximally combined. *)
Theorem CombineSuccessiveSameTypeChunks_maximal (self : CombineSuccessiveSameTypeChunks)
  (st : store) (chunks out : list loc) (st' : store) :
  merge_into_chunk_type self = None ->
  CombineSuccessiveSameTypeChunks_call self st chunks = Ok (out, st') ->
  (forall k c, st !! k = Some c -> st' !! k = Some c) /\
  Forall (fun l => is_Some (st' !! l)) out /\
  (List.length out <= List.length chunks)%nat /\
  adj_rel (not_combinable_pair self st') out.
Proof.
  intros Hn H. destruct (combine_loop_untyped_inv self Hn chunks st None out st' I H)
    as [A [B [C [D _]]]].
  split; [exact A|]. split; [exact B|]. split; [lia|exact C].
Qed.

Lemma CombineSuccessiveSameTypeChunks_maximal_witness :
  exists out st',
    merge_into_chunk_type combine_text = None /\
    CombineSuccessiveSameTypeChunks_call combine_text text_text_title_text
      [1%positive; 2%positive; 3%positive; 4%positive] = Ok (out, st') /\
    (forall k c, text_text_title_text !! k = Some c -> st' !! k = Some c) /\
    Forall (fun l => is_Some (st' !! l)) out /\
    (List.length out <= List.length [1%positive; 2%positive; 3%positive; 4%positive])%nat /\
    adj_rel (not_combinable_pair combine_text st') out.
Proof.
  eexists; eexists.
  assert (E : CombineSuccessiveSameTypeChunks_call combine_text text_text_title_text
      [1%positive; 2%positive; 3%positive; 4%positive] = Ok (_, _)) by reflexivity.
  split; [reflexivity|]. split; [exact E|].
  exact (CombineSuccessiveSameTypeChunks_maximal combine_text _ _ _ _ eq_refl E).
Defined.

(* ================================================================== *)
(** ** [SplitTextIntoSentences] passes every other chunk through *)

Lemma list_filter_app {A} (f : A -> bool) (l1 l2 : list A) :
  List.filter f (l1 ++ l2) = List.filter f l1 ++ List.filter f l2.
Proof. induction l1 as [|x l1 IH]; simpl; [reflexivity|]. destruct (f x); simpl; rewrite IH; reflexivity. Qed.

Lemma list_filter_none {A} (f : A -> bool) (l : list A) :
  List.Forall (fun x => f x = false) l -> List.filter f l = [].
Proof. induction 1 as [|x l Hx _ IH]; simpl; [reflexivity|]. rewrite Hx. exact IH. Qed.

Lemma split_working_types extract (c : Chunk) t :
  List.Forall (fun x => chunk_type x = chunk_type c) (split_working extract c t).1 /\
  match (split_working extract c t).2 with
  | Some x => chunk_type x = chunk_type c | None => True end.
Proof.
  unfold split_working. simpl. split.
  - apply List.Forall_forall. intros x Hx. apply in_map_iff in Hx.
    destruct Hx as [s [<- _]]. reflexivity.
  - destruct (String.eqb _ _); reflexivity.
Qed.

Lemma text_chunks_filtered ignore (l : list Chunk) :
  type_in TEXT ignore = false ->
  List.Forall (fun x => chunk_type x = TEXT) l ->
  List.filter (sp_ignored ignore) l = [] /\ List.filter (sp_other ignore) l = [].
Proof.
  intros Hi Hl. split; apply list_filter_none; eapply List.Forall_impl; try exact Hl;
    intros x Hx; unfold sp_ignored, sp_other; rewrite Hx.
  - exact Hi.
  - rewrite bool_decide_true by reflexivity. apply andb_false_r.
Qed.

Lemma split_loop_passes_through extract ignore (Hi : type_in TEXT ignore = false)
  (chunks : list Chunk) :
  forall inc buf out,
  match inc with Some c => chunk_type c = TEXT | None => True end ->
  List.Forall (fun c => sp_ignored ignore c = true) buf ->
  split_loop extract ignore inc buf chunks = Ok out ->
  List.filter (sp_ignored ignore) out = List.filter (sp_ignored ignore) (buf ++ chunks) /\
  List.filter (sp_other ignore) out = List.filter (sp_other ignore) chunks.
Proof.
  assert (Hbuf : forall buf, List.Forall (fun c => sp_ignored ignore c = true) buf ->
            List.filter (sp_other ignore) buf = []).
  { intros buf Hb. apply list_filter_none. eapply List.Forall_impl; [|exact Hb].
    intros x Hx. unfold sp_other. unfold sp_ignored in Hx. rewrite Hx. reflexivity. }
  assert (Hinc : forall inc : option Chunk,
            match inc with Some c => chunk_type c = TEXT | None => True end ->
            List.Forall (fun x => chunk_type x = TEXT)
              (match inc with Some c => [c] | None => [] end)).
  { intros [c|] Hc; repeat constructor. exact Hc. }
  induction chunks as [|ch rest IH]; intros inc buf out Hc Hb H.
  - cbn [split_loop] in H. injection H as <-. rewrite app_nil_r.
    destruct (text_chunks_filtered ignore _ Hi (Hinc inc Hc)) as [F1 F2].
    rewrite !list_filter_app, F1, F2, (Hbuf buf Hb). split; reflexivity.
  - cbn [split_loop] in H.
    destruct (type_in (chunk_type ch) ignore) eqn:Hp.
    + destruct (IH inc (buf ++ [ch]) out Hc) as [F1 F2].
      { apply List.Forall_app. split; [exact Hb|constructor; [exact Hp|constructor]]. }
      { exact H. }
      rewrite <- app_assoc in F1. split; [exact F1|].
      rewrite F2. cbn [List.filter]. unfold sp_other at 2. rewrite Hp. reflexivity.
    + destruct (bool_decide (chunk_type ch = TEXT)) eqn:Ht; cbn [negb] in H.
      * assert (Hs : forall c t out',
                  chunk_type c = TEXT ->
                  split_loop extract ignore (split_working extract c t).2 [] rest = Ok out' ->
                  List.filter (sp_ignored ignore) (split_working extract c t).1 = [] /\
                  List.filter (sp_other ignore) (split_working extract c t).1 = [] /\
                  List.filter (sp_ignored ignore) out' = List.filter (sp_ignored ignore) rest /\
                  List.filter (sp_other ignore) out' = List.filter (sp_other ignore) rest).
        { intros c t out' Hct E. destruct (split_working_types extract c t) as [W1 W2].
          rewrite Hct in W1, W2.
          destruct (IH _ [] out' W2 (List.Forall_nil _) E) as [G1 G2].
          destruct (text_chunks_filtered ignore _ Hi W1) as [T1 T2].
          auto. }
        assert (Hch1 : sp_ignored ignore ch = false) by exact Hp.
        assert (Hch2 : sp_other ignore ch = false).
        { unfold sp_other. rewrite Ht. apply andb_false_r. }
        apply bool_decide_eq_true in Ht.
        destruct inc as [inc|].
        -- destruct (merge inc [ch] " ") as [merged|] eqn:Hm; [|discriminate].
           cbn [bind] in H.
           apply merge_cons_ok in Hm. destruct Hm as [_ Hm].
           destruct (split_working extract (set_text merged (strip (text inc ++ " " ++ text ch)))
                       (strip (text inc ++ " " ++ text ch))) as [sents inc'] eqn:Ew.
           destruct (split_loop extract ignore inc' [] rest) as [out'|] eqn:E; [|discriminate].
           cbn [bind] in H. injection H as <-.
           assert (Hty : chunk_type (set_text merged (strip (text inc ++ " " ++ text ch))) = TEXT)
             by (rewrite Hm; exact Hc).
           pose proof (Hs _ (strip (text inc ++ " " ++ text ch)) out' Hty) as Hs'.
           rewrite Ew in Hs'. destruct (Hs' E) as [T1 [T2 [G1 G2]]]. cbn [fst] in T1, T2.
           repeat rewrite list_filter_app. cbn [List.filter].
           rewrite Hch1, Hch2, (Hbuf buf Hb), T1, T2, G1, G2. split; reflexivity.
        -- destruct (split_working extract ch (text ch)) as [sents inc'] eqn:Ew.
           destruct (split_loop extract ignore inc' [] rest) as [out'|] eqn:E; [|discriminate].
           cbn [bind] in H. injection H as <-.
           pose proof (Hs ch (text ch) out' Ht) as Hs'.
           rewrite Ew in Hs'. destruct (Hs' E) as [T1 [T2 [G1 G2]]]. cbn [fst] in T1, T2.
           repeat rewrite list_filter_app. cbn [List.filter].
           rewrite Hch1, Hch2, (Hbuf buf Hb), T1, T2, G1, G2. split; reflexivity.
      * destruct (split_loop extract ignore None [] rest) as [out'|] eqn:E; [|discriminate].
        cbn [bind] in H. injection H as <-.
        destruct (IH None [] out' I (List.Forall_nil _) E) as [G1 G2].
        destruct (text_chunks_filtered ignore _ Hi (Hinc inc Hc)) as [T1 T2].
        assert (Hch1 : sp_ignored ignore ch = false) by exact Hp.
        assert (Hch2 : sp_other ignore ch = true) by (unfold sp_other; rewrite Hp, Ht; reflexivity).
        repeat rewrite list_filter_app. rewrite T1, T2. cbn [List.filter app]. rewrite Hch1, Hch2.
        repeat rewrite list_filter_app. rewrite (Hbuf buf Hb), G1, G2. split; reflexivity.
Qed.

(** When TEXT is not among the ignored types, [SplitTextIntoSentences]
    (either splitter, any pysbd segmenter) returns every ignored chunk
    unchanged and in order, and likewise every other non-TEXT chunk. *)
Theorem SplitTextIntoSentences_passes_other_chunks (segment : string -> list string)
  (self : SplitTextIntoSentences) (chunks out : list Chunk) :
  type_in TEXT (sp_chunk_types_to_ignore self) = false ->
  SplitTextIntoSentences_call segment self chunks = Ok out ->
  List.filter (sp_ignored (sp_chunk_types_to_ignore self)) out
  = List.filter (sp_ignored (sp_chunk_types_to_ignore self)) chunks /\
  List.filter (sp_other (sp_chunk_types_to_ignore self)) out
  = List.filter (sp_other (sp_chunk_types_to_ignore self)) chunks.
Proof.
  intros Hi H. exact (split_loop_passes_through _ _ Hi chunks None [] out I (List.Forall_nil _) H).
Qed.

Lemma SplitTextIntoSentences_passes_other_chunks_witness :
  exists out,
    type_in TEXT [PAGE_HEADER; PAGE_FOOTER] = false /\
    SplitTextIntoSentences_call (fun t => [t])
      (mkSplitTextIntoSentences BasicSplitter [PAGE_HEADER; PAGE_FOOTER])
      page_break_chunks = Ok out /\
    List.filter (sp_ignored [PAGE_HEADER; PAGE_FOOTER]) out
    = List.filter (sp_ignored [PAGE_HEADER; PAGE_FOOTER]) page_break_chunks /\
    List.filter (sp_other [PAGE_HEADER; PAGE_FOOTER]) out
    = List.filter (sp_other [PAGE_HEADER; PAGE_FOOTER]) page_break_chunks.
Proof.
  eexists.
  assert (E : SplitTextIntoSentences_call (fun t => [t])
      (mkSplitTextIntoSentences BasicSplitter [PAGE_HEADER; PAGE_FOOTER])
      page_break_chunks = Ok _) by (vm_compute; reflexivity).
  split; [reflexivity|]. split; [exact E|].
  exact (SplitTextIntoSentences_passes_other_chunks _
           (mkSplitTextIntoSentences BasicSplitter [PAGE_HEADER; PAGE_FOOTER]) _ _ eq_refl E).
Defined.

(* ================================================================== *)
(** ** [encoders.sliding_window] *)

Lemma list_filter_map {A B} (f : B -> bool) (g : A -> B) (l : list A) :
  List.filter f (map g l) = map g (List.filter (fun x => f (g x)) l).
Proof. induction l as [|x l IH]; simpl; [reflexivity|]. destruct (f (g x)); simpl; rewrite IH; reflexivity. Qed.

Lemma filter_seq_prefix (p : nat -> bool) (M K : nat) :
  (K <= M)%nat -> (forall k, (k < M)%nat -> p k = (k <? K)%nat) ->
  List.filter p (seq 0 M) = seq 0 K.
Proof.
  intros HKM Hp. replace M with (K + (M - K))%nat by lia.
  rewrite seq_app, list_filter_app.
  assert (E1 : List.filter p (seq 0 K) = seq 0 K).
  { apply filter_all_true. intros k Hk. apply in_seq in Hk.
    rewrite Hp by lia. apply Nat.ltb_lt. lia. }
  assert (E2 : List.filter p (seq (0 + K) (M - K)) = []).
  { apply list_filter_none. apply List.Forall_forall. intros k Hk. apply in_seq in Hk.
    rewrite Hp by lia. apply Nat.ltb_ge. lia. }
  rewrite E1, E2, app_nil_r. reflexivity.
Qed.

Lemma sw_count_spec (n w s : nat) :
  (0 < w)%nat -> (0 < s)%nat ->
  (forall k, (k * s + w <= n)%nat <-> (k < sw_count n w s)%nat) /\
  (sw_count n w s <= (n + s - 1) / s)%nat.
Proof.
  intros Hw Hs. unfold sw_count.
  destruct (Nat.leb_spec w n) as [Hle|Hgt].
  - pose proof (Nat.div_mod (n - w) s ltac:(lia)) as D1.
    pose proof (Nat.mod_bound_pos (n - w) s ltac:(lia) Hs) as B1.
    pose proof (Nat.div_mod (n + s - 1) s ltac:(lia)) as D2.
    pose proof (Nat.mod_bound_pos (n + s - 1) s ltac:(lia) Hs) as B2.
    set (q := ((n - w) / s)%nat) in *. set (r := ((n - w) mod s)%nat) in *.
    set (q2 := ((n + s - 1) / s)%nat) in *. set (r2 := ((n + s - 1) mod s)%nat) in *.
    split.
    + intros k. split; intros Hk.
      * destruct (Nat.lt_ge_cases k (q + 1)) as [Hl|Hg]; [exact Hl|]. exfalso. nia.
      * nia.
    + destruct (Nat.le_gt_cases (q + 1) q2) as [Hl|Hg]; [exact Hl|]. exfalso. nia.
  - split; [intros k; split; intros Hk; lia|lia].
Qed.

Lemma py_index_in_range (s : string) (i : Z) :
  0 <= i <= Z.of_nat (String.length s) -> py_index s i = Z.to_nat i.
Proof.
  intros Hi. unfold py_index. rewrite (proj2 (Z.ltb_ge i 0)) by lia.
  rewrite Z.min_l, Z.max_r by lia. reflexivity.
Qed.

Lemma sliding_window_eq (text : string) (w stride : Z) :
  0 < w -> 0 < stride ->
  sliding_window text w stride =
  Ok (map (fun k => substring (k * Z.to_nat stride) (Z.to_nat w) text)
        (seq 0 (sw_count (String.length text) (Z.to_nat w) (Z.to_nat stride)))).
Proof.
  intros Hw Hs.
  destruct (Z_of_nat_complete stride) as [s ->]; [lia|].
  destruct (Z_of_nat_complete w) as [w' ->]; [lia|].
  rewrite !Nat2Z.id.
  unfold sliding_window, range_step.
  rewrite (proj2 (Z.eqb_neq _ _)) by lia. rewrite (proj2 (Z.ltb_ge _ _)) by lia.
  cbn [bind]. f_equal.
  set (n := String.length text).
  destruct (sw_count_spec n w' s ltac:(lia) ltac:(lia)) as [Hk HK].
  rewrite list_filter_map, map_map.
  assert (HM : Z.to_nat ((Z.of_nat n + Z.of_nat s - 1) / Z.of_nat s) = ((n + s - 1) / s)%nat).
  { replace (Z.of_nat n + Z.of_nat s - 1) with (Z.of_nat (n + s - 1)) by lia.
    rewrite <- Nat2Z.inj_div, Nat2Z.id. reflexivity. }
  rewrite HM.
  rewrite (filter_seq_prefix _ _ (sw_count n w' s) HK).
  - apply map_ext_in. intros k Hin. apply in_seq in Hin.
    assert (Hks : (k * s + w' <= n)%nat) by (apply Hk; lia).
    unfold py_slice.
    rewrite !py_index_in_range by (fold n; lia).
    rewrite <- Nat2Z.inj_mul, <- Nat2Z.inj_add, !Nat2Z.id.
    f_equal. lia.
  - intros k _. rewrite <- Nat2Z.inj_mul, <- Nat2Z.inj_add.
    destruct (Nat.ltb_spec k (sw_count n w' s)) as [Hl|Hg].
    + apply Z.leb_le. apply Nat2Z.inj_le. apply Hk. exact Hl.
    + apply Z.leb_gt. apply Nat2Z.inj_lt.
      destruct (Nat.le_gt_cases (k * s + w') n) as [Hle|Hgt]; [|exact Hgt].
      exfalso. apply Hk in Hle. lia.
Qed.

Lemma substring_length (s : string) : forall i m,
  (i + m <= String.length s)%nat -> String.length (substring i m s) = m.
Proof.
  induction s as [|a s IH]; intros i m H.
  - simpl in H. assert (i = 0%nat /\ m = 0%nat) as [-> ->] by lia. reflexivity.
  - destruct i as [|i].
    + destruct m as [|m]; [reflexivity|]. simpl in *. rewrite IH; [reflexivity|lia].
    + simpl in *. apply IH. lia.
Qed.

(** For a positive window size and stride, [sliding_window] returns the
    windows of the text starting at [0, stride, 2*stride, ...] that fit
    in it: [(n - w) / stride + 1] of them when [w <= n], none otherwise,
    each of exactly [w] characters. *)
Theorem sliding_window_windows (text : string) (w stride : Z) :
  0 < w -> 0 < stride ->
  exists ws, sliding_window text w stride = Ok ws /\
    List.length ws = sw_count (String.length text) (Z.to_nat w) (Z.to_nat stride) /\
    (forall k x, nth_error ws k = Some x ->
       x = substring (k * Z.to_nat stride) (Z.to_nat w) text /\
       String.length x = Z.to_nat w).
Proof.
  intros Hw Hs. eexists. split; [exact (sliding_window_eq text w stride Hw Hs)|].
  split; [rewrite length_map, length_seq; reflexivity|].
  intros k x Hx. apply nth_error_In in Hx as Hin.
  rewrite nth_error_map in Hx.
  destruct (nth_error (seq 0 _) k) as [j|] eqn:Ej; [|discriminate].
  cbn in Hx. injection Hx as <-.
  apply nth_error_In in Ej as Hj. apply in_seq in Hj.
  assert (j = k) as ->.
  { rewrite List.nth_error_seq in Ej. destruct (Nat.ltb _ _); [|discriminate].
    injection Ej. lia. }
  split; [reflexivity|]. apply substring_length.
  destruct (Z_of_nat_complete stride) as [s ->]; [lia|].
  destruct (Z_of_nat_complete w) as [w' ->]; [lia|]. rewrite !Nat2Z.id in *.
  destruct (sw_count_spec (String.length text) w' s ltac:(lia) ltac:(lia)) as [Hk _].
  apply Hk. lia.
Qed.

Lemma sliding_window_windows_witness :
  (0 < 3 /\ 0 < 2) /\
  exists ws, sliding_window "abcdefg" 3 2 = Ok ws /\
    List.length ws = sw_count (String.length "abcdefg") (Z.to_nat 3) (Z.to_nat 2) /\
    (forall k x, nth_error ws k = Some x ->
       x = substring (k * Z.to_nat 2) (Z.to_nat 3) "abcdefg" /\
       String.length x = Z.to_nat 3).
Proof. split; [lia|]. apply sliding_window_windows; lia. Defined.

Lemma substring_split (s : string) : forall i j k,
  substring i (j + k) s = (substring i j s ++ substring (i + j) k s)%string.
Proof.
  induction s as [|a s IH]; intros i j k.
  - destruct i, j, k; reflexivity.
  - destruct i as [|i].
    + destruct j as [|j]; [reflexivity|].
      change (String a (substring 0 (j + k) s)
              = String a (substring 0 j s ++ substring j k s))%string.
      rewrite (IH 0%nat j k). reflexivity.
    + simpl. apply IH.
Qed.

Lemma substring_full (s : string) : substring 0 (String.length s) s = s.
Proof. induction s as [|a s IH]; [reflexivity|]. simpl. rewrite IH. reflexivity. Qed.

Lemma string_app_nil_r (s : string) : (s ++ EmptyString)%string = s.
Proof.
  induction s as [|a s IH]; [reflexivity|].
  change (String a (s ++ EmptyString) = String a s)%string. rewrite IH. reflexivity.
Qed.

Lemma join_empty_sep (l : list string) : join EmptyString l = fold_right String.append EmptyString l.
Proof.
  induction l as [|x l IH]; [reflexivity|].
  destruct l as [|y l]; [simpl; symmetry; apply string_app_nil_r|].
  change (x ++ join EmptyString (y :: l) = x ++ fold_right String.append EmptyString (y :: l))%string.
  rewrite IH. reflexivity.
Qed.

Lemma substring_zero (s : string) : forall i, substring i 0 s = EmptyString.
Proof. induction s as [|a s IH]; intros [|i]; simpl; auto. Qed.

Lemma concat_windows (s : string) (w : nat) : forall m a,
  fold_right String.append EmptyString
    (map (fun k => substring (k * w) w s) (seq a m)) = substring (a * w) (m * w) s.
Proof.
  induction m as [|m IH]; intros a.
  - simpl. symmetry. apply substring_zero.
  - cbn [seq map fold_right]. rewrite IH.
    replace (S m * w)%nat with (w + m * w)%nat by lia.
    rewrite substring_split. replace (S a * w)%nat with (a * w + w)%nat by lia. reflexivity.
Qed.

(** Windows with the stride equal to their size do not overlap: when the
    size divides the length of the text, joining them gives the text. *)
Theorem sliding_window_non_overlapping_round_trip (text : string) (w : Z) :
  0 < w -> (String.length text mod Z.to_nat w = 0)%nat ->
  exists ws, sliding_window text w w = Ok ws /\ join EmptyString ws = text.
Proof.
  intros Hw Hdiv. eexists. split; [exact (sliding_window_eq text w w Hw Hw)|].
  rewrite join_empty_sep, concat_windows, Nat.mul_0_l.
  destruct (Z_of_nat_complete w) as [w' ->]; [lia|]. rewrite Nat2Z.id in *.
  set (n := String.length text) in *.
  assert (Hc : (sw_count n w' w' * w')%nat = n).
  { pose proof (Nat.div_mod n w' ltac:(lia)) as D. rewrite Hdiv, Nat.add_0_r in D.
    unfold sw_count. destruct (Nat.leb_spec w' n) as [Hle|Hgt].
    - set (q := (n / w')%nat) in *.
      assert (Hq : (1 <= q)%nat) by nia.
      replace (n - w')%nat with ((q - 1) * w')%nat by nia.
      rewrite Nat.div_mul by lia. nia.
    - rewrite Nat.div_small in D by lia. lia. }
  rewrite Hc. apply substring_full.
Qed.

Lemma sliding_window_non_overlapping_round_trip_witness :
  (0 < 3 /\ (String.length "abcdef" mod Z.to_nat 3 = 0)%nat) /\
  exists ws, sliding_window "abcdef" 3 3 = Ok ws /\ join EmptyString ws = "abcdef"%string.
Proof.
  split; [split; [lia|reflexivity]|].
  apply sliding_window_non_overlapping_round_trip; [lia|reflexivity].
Defined.

(* ================================================================== *)
(** ** [utils.get_ids_with_suffix] *)

Lemma string_length_app (x y : string) :
  String.length (x ++ y) = (String.length x + String.length y)%nat.
Proof. induction x as [|a x IH]; [reflexivity|]. simpl. rewrite IH. reflexivity. Qed.

Lemma substring_app_l (x y : string) : substring 0 (String.length x) (x ++ y) = x.
Proof. induction x as [|a x IH]; [destruct y; reflexivity|]. simpl. rewrite IH. reflexivity. Qed.

Lemma substring_app_r (x y : string) :
  forall m, substring (String.length x) m (x ++ y) = substring 0 m y.
Proof. induction x as [|a x IH]; intros m; [reflexivity|]. simpl. apply IH. Qed.

Lemma str_drop_app (x y : string) : str_drop (String.length x) (x ++ y) = y.
Proof.
  unfold str_drop. rewrite substring_app_r, string_length_app.
  replace (String.length x + String.length y - String.length x)%nat
    with (String.length y) by lia.
  apply substring_full.
Qed.

Lemma endswith_app (x y : string) : endswith (x ++ y) y = true.
Proof.
  unfold endswith. rewrite string_length_app.
  replace (String.length x + String.length y - String.length y)%nat
    with (String.length x) by lia.
  rewrite substring_app_r, substring_full, String.eqb_refl.
  apply andb_true_intro. split; [apply Nat.leb_le; lia|reflexivity].
Qed.

Lemma rfind_from_app (c : ascii) (x y : string) : forall i b,
  rfind_from c (x ++ y) i b
  = rfind_from c y (i + Z.of_nat (String.length x)) (rfind_from c x i b).
Proof.
  induction x as [|a x IH]; intros i b; [simpl; rewrite Z.add_0_r; reflexivity|].
  simpl. rewrite IH. f_equal. lia.
Qed.

Lemma rfind_from_absent (c : ascii) (s : string) : forall i b,
  has_char c s = false -> rfind_from c s i b = b.
Proof.
  induction s as [|a s IH]; intros i b H; [reflexivity|].
  unfold has_char in H. simpl in H. apply orb_false_iff in H as [Ha Hs].
  simpl. rewrite Ha. apply IH. exact Hs.
Qed.

Lemma has_char_app (c : ascii) (x y : string) :
  has_char c (x ++ y) = has_char c x || has_char c y.
Proof.
  unfold has_char. induction x as [|a x IH]; [reflexivity|].
  simpl. rewrite IH. apply orb_assoc.
Qed.

Lemma basename_dir (dir r : string) :
  has_char "/"%char r = false -> basename (dir ++ "/" ++ r) = r.
Proof.
  intros Hr. unfold basename, rfind.
  rewrite rfind_from_app.
  change ("/" ++ r)%string with (String "/"%char r). simpl rfind_from at 1.
  rewrite rfind_from_absent by exact Hr.
  unfold slice_from.
  rewrite py_index_in_range.
  2: { rewrite string_length_app. simpl. lia. }
  replace (Z.to_nat (0 + Z.of_nat (String.length dir) + 1)) with (String.length dir + 1)%nat by lia.
  replace (String.length dir + 1)%nat with (String.length (dir ++ "/"))
    by (rewrite string_length_app; reflexivity).
  change (String "/"%char r) with ("/" ++ r)%string. rewrite <- string_app_assoc.
  apply str_drop_app.
Qed.

Lemma splitext_ext (nm ext : string) :
  has_char "/"%char nm = false ->
  existsb (fun a => negb (Ascii.eqb a "."%char)) (list_ascii_of_string nm) = true ->
  has_char "/"%char ext = false -> has_char "."%char ext = false ->
  splitext (nm ++ "." ++ ext) = (nm, ("." ++ ext)%string).
Proof.
  intros Hn1 Hn2 He1 He2. unfold splitext, rfind.
  rewrite rfind_from_absent.
  2: { rewrite has_char_app, Hn1. simpl. exact He1. }
  rewrite rfind_from_app.
  change ("." ++ ext)%string with (String "."%char ext).
  cbn [rfind_from Ascii.eqb Ascii.eqb Bool.eqb]. simpl (Ascii.eqb "." ".").
  rewrite rfind_from_absent by exact He2.
  rewrite (proj2 (Z.ltb_lt _ _)) by lia.
  assert (Hlen : String.length (nm ++ String "." ext) = (String.length nm + S (String.length ext))%nat)
    by (rewrite string_length_app; reflexivity).
  unfold py_slice.
  rewrite !py_index_in_range by (rewrite Hlen; lia).
  replace (Z.to_nat (-1 + 1)) with 0%nat by reflexivity.
  replace (Z.to_nat (0 + Z.of_nat (String.length nm))) with (String.length nm) by lia.
  rewrite Nat.sub_0_r, substring_app_l, Hn2.
  unfold slice_to, slice_from. rewrite !py_index_in_range by (rewrite Hlen; lia).
  replace (Z.to_nat (0 + Z.of_nat (String.length nm))) with (String.length nm) by lia.
  unfold str_take. rewrite substring_app_l. f_equal.
  unfold str_drop. rewrite substring_app_r, Hlen.
  replace (String.length nm + S (String.length ext) - String.length nm)%nat
    with (String.length (String "." ext)) by (simpl; lia).
  apply substring_full.
Qed.

(** [get_ids_with_suffix] recovers the ids of files named
    [dir/<id>.<ext>] and ignores every file without the suffix, provided
    each id has no slash and a character other than a dot, and the
    extension has neither. *)
Theorem get_ids_with_suffix_round_trip (dir ext : string) (names others : list string) :
  Forall (fun nm => has_char "/"%char nm = false /\
            existsb (fun a => negb (Ascii.eqb a "."%char)) (list_ascii_of_string nm) = true) names ->
  has_char "/"%char ext = false -> has_char "."%char ext = false ->
  Forall (fun f => endswith f ("." ++ ext)%string = false) others ->
  get_ids_with_suffix (map (fun nm => (dir ++ "/" ++ nm ++ "." ++ ext)%string) names ++ others)
    ("." ++ ext)%string = list_to_set names.
Proof.
  intros Hn He1 He2 Ho. unfold get_ids_with_suffix.
  rewrite list_filter_app, (list_filter_none _ others) by exact Ho. rewrite app_nil_r.
  rewrite filter_all_true.
  2: { intros f Hf. apply in_map_iff in Hf. destruct Hf as [nm [<- _]].
       rewrite <- (string_app_assoc dir), <- string_app_assoc. apply endswith_app. }
  rewrite map_map. f_equal.
  rewrite <- (map_id names) at 2. apply map_ext_in. intros nm Hin.
  rewrite List.Forall_forall in Hn. destruct (Hn nm Hin) as [Hn1 Hn2].
  rewrite basename_dir.
  - rewrite splitext_ext; auto.
  - rewrite !has_char_app, Hn1. simpl. exact He1.
Qed.

Lemma get_ids_with_suffix_round_trip_witness :
  get_ids_with_suffix
    (map (fun nm => ("data" ++ "/" ++ nm ++ "." ++ "json")%string) ["CCLW.1"; "UNFCCC_2"]
     ++ ["data/notes.npy"; "README"]) ("." ++ "json")%string
  = list_to_set ["CCLW.1"; "UNFCCC_2"].
Proof.
  apply get_ids_with_suffix_round_trip.
  - repeat constructor.
  - reflexivity.
  - reflexivity.
  - repeat constructor.
Defined.

Lemma merge_cons_split_witness :
  Forall chunk_valid [plain_chunk 2 "a" TEXT; plain_chunk 0 "b" TEXT; plain_chunk 1 "c" TEXT] /\
  merge (plain_chunk 2 "a" TEXT) [plain_chunk 0 "b" TEXT; plain_chunk 1 "c" TEXT] " "
  = (let! m := merge (plain_chunk 2 "a" TEXT) [plain_chunk 0 "b" TEXT] " " in
     merge m [plain_chunk 1 "c" TEXT] " ").
Proof.
  assert (Hv : Forall chunk_valid
                 [plain_chunk 2 "a" TEXT; plain_chunk 0 "b" TEXT; plain_chunk 1 "c" TEXT]).
  { repeat constructor; cbn; lia. }
  split; [exact Hv|]. exact (merge_cons_split _ _ _ " " Hv).
Defined.

(* ================================================================== *)
(** ** [CombineTextChunksIntoList] *)

Lemma merge_chunk_type (c o : Chunk) (sep : string) (m : Chunk) :
  merge c [o] sep = Ok m -> chunk_type m = chunk_type c.
Proof. intros H. apply merge_cons_ok in H. destruct H as [_ ->]. reflexivity. Qed.

Lemma combine_list_loop_others list_item_found is_lower sep (chunks : list Chunk) :
  forall cur cont intro out,
  (match cur with Some c => chunk_type c = LIST | None => True end) ->
  (match intro with Some c => chunk_type c = TEXT | None => True end) ->
  combine_list_loop list_item_found is_lower sep cur cont intro chunks = Ok out ->
  List.filter not_text_or_list out = List.filter not_text_or_list chunks.
Proof.
  assert (Hcur : forall cur : option Chunk,
            match cur with Some c => chunk_type c = LIST | None => True end ->
            List.filter not_text_or_list (opt_list cur) = []).
  { intros [c|] Hc; [simpl; unfold not_text_or_list; rewrite Hc; reflexivity|reflexivity]. }
  assert (Hintro : forall intro : option Chunk,
            match intro with Some c => chunk_type c = TEXT | None => True end ->
            List.filter not_text_or_list (opt_list intro) = []).
  { intros [c|] Hc; [simpl; unfold not_text_or_list; rewrite Hc; reflexivity|reflexivity]. }
  induction chunks as [|ch rest IH]; intros cur cont intro out Hc Hi H.
  - cbn [combine_list_loop] in H. injection H as <-.
    destruct cur as [c|]; [exact (Hcur (Some c) Hc)|exact (Hintro intro Hi)].
  - cbn [combine_list_loop] in H.
    destruct (bool_decide (chunk_type ch = TEXT)) eqn:Ht; cbn [negb] in H.
    + apply bool_decide_eq_true in Ht.
      assert (Hch : not_text_or_list ch = false) by (unfold not_text_or_list; rewrite Ht; reflexivity).
      cbn [List.filter]. rewrite Hch.
      destruct (list_item_found (text ch)).
      * destruct intro as [i|].
        -- destruct (merge (set_chunk_type_of i LIST) [ch] sep) as [m|] eqn:Hm; [|discriminate].
           cbn [bind] in H.
           destruct (combine_list_loop _ _ _ (Some m) true None rest) as [out'|] eqn:E; [|discriminate].
           cbn [bind] in H. injection H as <-.
           apply merge_chunk_type in Hm.
           rewrite list_filter_app, (Hcur cur Hc). refine (IH _ _ _ _ _ _ E); [exact Hm|exact I].
        -- destruct cur as [c|].
           ++ destruct (merge c [ch] sep) as [m|] eqn:Hm; [|discriminate]. cbn [bind] in H.
              apply merge_chunk_type in Hm. rewrite Hc in Hm. refine (IH _ _ _ _ _ _ H); [exact Hm|exact I].
           ++ refine (IH _ _ _ _ _ _ H); [exact eq_refl|exact I].
      * destruct cur as [c|].
        -- destruct (cont && list_continuation_text is_lower (text ch)).
           ++ destruct (merge c [ch] " ") as [m|] eqn:Hm; [|discriminate]. cbn [bind] in H.
              apply merge_chunk_type in Hm. rewrite Hc in Hm. refine (IH _ _ _ _ _ _ H); [exact Hm|exact Hi].
           ++ destruct (endswith (strip (text ch)) ":").
              ** destruct (combine_list_loop _ _ _ None false (Some ch) rest) as [out'|] eqn:E;
                   [|discriminate].
                 cbn [bind] in H. injection H as <-.
                 assert (HcF : not_text_or_list c = false)
                   by (unfold not_text_or_list; rewrite Hc; reflexivity).
                 cbn [List.filter]. rewrite HcF. exact (IH None false (Some ch) out' I Ht E).
              ** destruct (combine_list_loop _ _ _ None false None rest) as [out'|] eqn:E;
                   [|discriminate].
                 cbn [bind] in H. injection H as <-.
                 assert (HcF : not_text_or_list c = false)
                   by (unfold not_text_or_list; rewrite Hc; reflexivity).
                 cbn [List.filter]. rewrite HcF, !list_filter_app, (Hintro intro Hi).
                 cbn [List.filter app]. rewrite Hch. refine (IH _ _ _ _ _ _ E); exact I.
        -- destruct (endswith (strip (text ch)) ":").
           ++ exact (IH None false (Some ch) out I Ht H).
           ++ destruct (combine_list_loop _ _ _ None false None rest) as [out'|] eqn:E;
                [|discriminate].
              cbn [bind] in H. injection H as <-.
              rewrite !list_filter_app, (Hintro intro Hi).
              cbn [List.filter app]. rewrite Hch. refine (IH _ _ _ _ _ _ E); exact I.
    + destruct (combine_list_loop _ _ _ None false None rest) as [out'|] eqn:E; [|discriminate].
      cbn [bind] in H. injection H as <-.
      rewrite !list_filter_app, (Hcur cur Hc), (Hintro intro Hi).
      cbn [List.filter app].
      destruct (not_text_or_list ch); rewrite (IH None false None out' I I E); reflexivity.
Qed.

(** [CombineTextChunksIntoList] (for any list-item matcher) returns every
    chunk whose type is neither TEXT nor LIST unchanged and in order. *)
Theorem CombineTextChunksIntoList_keeps_other_chunks (list_item_found : string -> bool)
  (is_lower : ascii -> bool) (sep : string) (chunks out : list Chunk) :
  CombineTextChunksIntoList_call list_item_found is_lower sep chunks = Ok out ->
  List.filter not_text_or_list out = List.filter not_text_or_list chunks.
Proof. apply combine_list_loop_others; exact I. Qed.

Lemma CombineTextChunksIntoList_keeps_other_chunks_witness :
  exists out,
    CombineTextChunksIntoList_call dash_item ascii_is_lower newline
      [plain_chunk 0 "Measures:" TEXT; plain_chunk 1 "- tax" TEXT;
       plain_chunk 2 "Table" TABLE; plain_chunk 3 "- levy" TEXT] = Ok out /\
    List.filter not_text_or_list out
    = List.filter not_text_or_list
        [plain_chunk 0 "Measures:" TEXT; plain_chunk 1 "- tax" TEXT;
         plain_chunk 2 "Table" TABLE; plain_chunk 3 "- levy" TEXT].
Proof.
  eexists.
  assert (E : CombineTextChunksIntoList_call dash_item ascii_is_lower newline
      [plain_chunk 0 "Measures:" TEXT; plain_chunk 1 "- tax" TEXT;
       plain_chunk 2 "Table" TABLE; plain_chunk 3 "- levy" TEXT] = Ok _)
    by (vm_compute; reflexivity).
  split; [exact E|]. exact (CombineTextChunksIntoList_keeps_other_chunks _ _ _ _ _ E).
Defined.


